(** * Corrected calcium in hypoalbuminemia: the calculation service

    A shallow embedding of [main.py]: the pydantic input schema
    [CalciumCorrectionInput] with its [ge]/[le] bounds and default, the
    handler [calculate_corrected_calcium], and the Python [float]
    arithmetic they run on.

    Python's [float] is IEEE 754 binary64.  It is modelled by
    [spec_float] of the standard library at precision 53 and maximal
    exponent 1024, with the library's own round-to-nearest-even
    operations [SFadd], [SFsub], [SFmul] and comparison [SFleb]; no
    real-number or rational idealisation of the arithmetic is made.
    Float literals and [round(x, 1)] go through correctly rounded
    conversions between decimals and binary64, as in CPython.

    The transport is left out: a posted form arrives as three fields,
    each absent, not a number, or already read as a float.

    The file has three parts: the embedding; a small theory of the
    library's rounding, which reads every float of the computation as an
    integer at a power-of-two scale; and the properties of the
    specification, proved on the embedding. *)

From Stdlib Require Import ZArith Bool List String Lia.
From Stdlib Require Import SpecFloat.
Import ListNotations.
Local Open Scope Z_scope.

(* ================================================================== *)
(** * Python floats *)
(* ================================================================== *)

Module Float64.

(** binary64: 53 bits of precision, exponents below 1024. *)
Definition prec : Z := 53.
Definition emax : Z := 1024.

(** A Python float is a [spec_float] in canonical form. *)
Definition float : Type := spec_float.
Definition is_float (x : float) : Prop := valid_binary prec emax x = true.

(** Neither an infinity nor a NaN ([math.isfinite]). *)
Definition is_finite (x : float) : bool :=
  match x with
  | S754_zero _ | S754_finite _ _ _ => true
  | S754_infinity _ | S754_nan => false
  end.

(** [x + y], [x - y], [x * y] and [x <= y] on floats. *)
Definition add : float -> float -> float := SFadd prec emax.
Definition sub : float -> float -> float := SFsub prec emax.
Definition mul : float -> float -> float := SFmul prec emax.
Definition leb : float -> float -> bool := SFleb.

(** [X / 2^n] rounded to the nearest integer, a tie going to the even
    neighbour; [X] and [n] are non-negative. *)
Definition div_pow2_half_even (X n : Z) : Z :=
  let q := X / 2 ^ n in
  let r := X mod 2 ^ n in
  match 2 * r ?= 2 ^ n with
  | Lt => q
  | Eq => if Z.even q then q else q + 1
  | Gt => q + 1
  end.

(** The float denoted by the decimal numeral [k * 10^-ndigits] with sign
    [s]: the binary64 nearest to it (ties to even), as the reader of
    Python float literals and C's [strtod] produce it.  The quotient of
    the two integers is formed with the library's division core and
    rounded once. *)
Definition of_decimal (s : bool) (k : Z) (ndigits : N) : float :=
  match k with
  | Zpos _ =>
      let '(mz, ez, lz) :=
        SFdiv_core_binary prec emax k 0 (10 ^ Z.of_N ndigits) 0 in
      binary_round_aux prec emax s mz ez lz
  | _ => S754_zero s
  end.

(** A non-negative float literal: [lit 8 1] is [0.8], [lit 3999 3] is
    [3.999]. *)
Definition lit (k : Z) (ndigits : N) : float := of_decimal false k ndigits.

(** The integer nearest to [m * 2^e * 10^ndigits], ties to even: the
    digits that the correctly rounded conversion to [ndigits] decimal
    places produces for the exact value of a float. *)
Definition decimal_digits (m : positive) (e : Z) (ndigits : N) : Z :=
  match e with
  | Zneg p => div_pow2_half_even (Zpos m * 10 ^ Z.of_N ndigits) (Zpos p)
  | _ => Zpos m * 10 ^ Z.of_N ndigits * 2 ^ e
  end.

(** Python's [round(x, ndigits)] on a float with a non-negative
    [ndigits]: infinities, NaN and zeros are returned as they are; a
    finite [x] is converted to the decimal with [ndigits] fractional
    digits nearest to its exact value (ties to even) and that decimal is
    read back as a float. *)
Definition round (x : float) (ndigits : N) : float :=
  match x with
  | S754_finite s m e => of_decimal s (decimal_digits m e ndigits) ndigits
  | _ => x
  end.

End Float64.

Import Float64.

(* ================================================================== *)
(** * The input schema and its validation *)
(* ================================================================== *)

(** The constraints a pydantic [Field] carries for a float field. *)
Record FieldInfo : Type := mkField {
  name : string;
  ge : float;
  le : float;
  default : option float
}.

(** The three fields of [CalciumCorrectionInput]. *)
Definition measured_calcium_field : FieldInfo :=
  mkField "measured_calcium" (lit 40 1) (lit 140 1) None.
Definition serum_albumin_field : FieldInfo :=
  mkField "serum_albumin" (lit 20 1) (lit 55 1) None.
Definition normal_albumin_field : FieldInfo :=
  mkField "normal_albumin" (lit 30 1) (lit 50 1) (Some (lit 40 1)).

(** What a form carries for one field: nothing, a text that is not a
    number, or a text read as the float [x]. *)
Inductive FormValue : Type :=
  | Absent
  | NotANumber
  | Number (x : float).

(** The form posted to [/calculate]. *)
Record Form : Type := mkForm {
  form_measured_calcium : FormValue;
  form_serum_albumin : FormValue;
  form_normal_albumin : FormValue
}.

(** The validated model [CalciumCorrectionInput]. *)
Record CalciumCorrectionInput : Type := mkInput {
  measured_calcium : float;
  serum_albumin : float;
  normal_albumin : float
}.

(** The response model [CalciumCorrectionOutput]. *)
Record CalciumCorrectionOutput : Type := mkOutput {
  corrected_calcium : float
}.

(** The kinds of error a float field can report. *)
Inductive ErrorType : Type :=
  | missing
  | float_parsing
  | greater_than_equal
  | less_than_equal.

(** One entry of a validation error: the field and what is wrong. *)
Record ErrorDetail : Type := mkError {
  loc : string;
  type : ErrorType
}.

(** The outcome of the operation: a result, or the validation error with
    its entries. *)
Inductive Response (A : Type) : Type :=
  | Ok (a : A)
  | ValidationError (errors : list ErrorDetail).
Arguments Ok {A} a.
Arguments ValidationError {A} errors.

(** [ge <= x <= le], the closed range of a field. *)
Definition in_range (f : FieldInfo) (x : float) : bool :=
  leb (ge f) x && leb x (le f).

(** Validation of one field: an absent field takes the default when
    there is one; a number must satisfy [x <= le] and [x >= ge], tested
    in this order, so that a NaN, which fails both, is reported as
    [less_than_equal]. *)
Definition validate_field (f : FieldInfo) (v : FormValue)
  : float + ErrorDetail :=
  match v with
  | Absent =>
      match default f with
      | Some d => inl d
      | None => inr (mkError (name f) missing)
      end
  | NotANumber => inr (mkError (name f) float_parsing)
  | Number x =>
      if negb (leb x (le f)) then inr (mkError (name f) less_than_equal)
      else if negb (leb (ge f) x) then inr (mkError (name f) greater_than_equal)
      else inl x
  end.

(** The errors of one field, as a list. *)
Definition field_errors (r : float + ErrorDetail) : list ErrorDetail :=
  match r with
  | inl _ => []
  | inr e => [e]
  end.

(** Validation of the whole form: every field is validated and the
    errors of all fields are reported together. *)
Definition validate (data : Form) : Response CalciumCorrectionInput :=
  let m := validate_field measured_calcium_field (form_measured_calcium data) in
  let s := validate_field serum_albumin_field (form_serum_albumin data) in
  let n := validate_field normal_albumin_field (form_normal_albumin data) in
  match m, s, n with
  | inl m', inl s', inl n' => Ok (mkInput m' s' n')
  | _, _, _ => ValidationError (field_errors m ++ field_errors s ++ field_errors n)
  end.

(* ================================================================== *)
(** * The handler *)
(* ================================================================== *)

(** [measured_calcium + 0.8 * (normal_albumin - serum_albumin)]. *)
Definition formula (data : CalciumCorrectionInput) : float :=
  add (measured_calcium data)
      (mul (lit 8 1) (sub (normal_albumin data) (serum_albumin data))).

(** The body of [calculate_corrected_calcium]. *)
Definition calculate_corrected_calcium (data : CalciumCorrectionInput)
  : CalciumCorrectionOutput :=
  let corrected_calcium := formula data in
  let corrected_calcium := round corrected_calcium 1 in
  mkOutput corrected_calcium.

(** The operation [POST /calculate]: validation, then the handler. *)
Definition calculate (data : Form) : Response CalciumCorrectionOutput :=
  match validate data with
  | Ok input => Ok (calculate_corrected_calcium input)
  | ValidationError errors => ValidationError errors
  end.

(* ================================================================== *)
(** * Vocabulary of the specification *)
(* ================================================================== *)

(** A form whose numbers are Python floats. *)
Definition well_formed_value (v : FormValue) : Prop :=
  match v with
  | Number x => is_float x
  | _ => True
  end.

Definition well_formed (data : Form) : Prop :=
  well_formed_value (form_measured_calcium data)
  /\ well_formed_value (form_serum_albumin data)
  /\ well_formed_value (form_normal_albumin data).

(** The specification's condition for a validation error on a field: it
    is missing and has no default, it is not a number, or it lies
    outside the closed range of the field. *)
Definition field_rejected (f : FieldInfo) (v : FormValue) : Prop :=
  match v with
  | Absent => default f = None
  | NotANumber => True
  | Number x => in_range f x = false
  end.

Definition form_rejected (data : Form) : Prop :=
  field_rejected measured_calcium_field (form_measured_calcium data)
  \/ field_rejected serum_albumin_field (form_serum_albumin data)
  \/ field_rejected normal_albumin_field (form_normal_albumin data).

(** The field and its value that an error entry points at. *)
Definition offending (data : Form) (e : ErrorDetail) : Prop :=
  (loc e = name measured_calcium_field
   /\ field_rejected measured_calcium_field (form_measured_calcium data))
  \/ (loc e = name serum_albumin_field
      /\ field_rejected serum_albumin_field (form_serum_albumin data))
  \/ (loc e = name normal_albumin_field
      /\ field_rejected normal_albumin_field (form_normal_albumin data)).

(** A form is accepted when the operation answers with a result, and
    rejected on a field when it answers with a validation error whose
    only entry is that field. *)
Definition accepted (data : Form) : Prop :=
  exists out, calculate data = Ok out.
Definition rejected_on (f : FieldInfo) (kind : ErrorType) (data : Form) : Prop :=
  calculate data = ValidationError [mkError (name f) kind].

(** The floats next to [x], below and above. *)
Definition float_below (x : float) : float := SFpred prec emax x.
Definition float_above (x : float) : float := SFsucc prec emax x.

(* ================================================================== *)
(** * Integers behind the floats *)
(* ================================================================== *)

(** The proofs read a float as an integer [X] at a scale [e], standing
    for [X * 2^e], and follow the arithmetic on these integers. *)

(** [X >= 0] rounded to 53 significant bits, ties to even. *)
Definition round_int (X : Z) : Z :=
  let d := Zdigits2 X in
  if d <=? 53 then X else div_pow2_half_even X (d - 53) * 2 ^ (d - 53).

(** The same for an integer of either sign. *)
Definition sround (X : Z) : Z := Z.sgn X * round_int (Z.abs X).

(** [X] has at most 53 significant bits. *)
Definition fits (X : Z) : Prop := sround X = X.

(** The float nearest to [X * 2^e]. *)
Definition of_int (X e : Z) : float := binary_normalize prec emax X e false.

(** The value of a finite float in units of [2^-1074], the least
    positive binary64. *)
Definition units (x : float) : Z :=
  match x with
  | S754_finite s m e => cond_Zopp s (Zpos m * 2 ^ (e + 1074))
  | _ => 0
  end.

(** Normal form: [+0], or a finite float with a 53-bit mantissa. *)
Definition nf (x : float) : Prop :=
  match x with
  | S754_zero s => s = false
  | S754_finite s m e => Zpos (digits2_pos m) = 53 /\ -1074 <= e <= 971
  | _ => False
  end.

(** [X * 2^e] rounds without underflow or overflow. *)
Definition normal_range (X e : Z) : Prop :=
  -1022 <= e /\ Zdigits2 X + e <= 1023.

Definition exponent_ge (b : Z) (x : float) : Prop :=
  match x with
  | S754_finite _ _ e => b <= e
  | _ => True
  end.

(** The mantissa of the float [0.8], which is [c08 * 2^-53]. *)
Definition c08 : Z := 7205759403792794.

(** The formula at scale [2^-104], from the inputs at scale [2^-51]. *)
Definition formula_int (Mm Ms Mn : Z) : Z :=
  Mm * 2 ^ 53 + sround (c08 * (Mn - Ms)).

(** Its least and greatest values on the validated ranges: at measured
    4.0, serum 5.5, normal 3.0, and at measured 14.0, serum 2.0, normal
    5.0. *)
Definition formula_int_min : Z :=
  Eval vm_compute in
    formula_int 9007199254740992 12384898975268864 6755399441055744.
Definition formula_int_max : Z :=
  Eval vm_compute in
    formula_int 31525197391593472 4503599627370496 11258999068426240.
Definition formula_int_max_rounded : Z :=
  Eval vm_compute in sround formula_int_max.

(** What is checked of each decimal [k / 10] a result can be: it reads as
    a finite float in canonical form between 2.0 and 16.4, and rounding
    that float to one decimal place gives the same decimal back. *)
Definition tenths_ok (k : Z) : bool :=
  let x := lit k 1 in
  is_finite x && valid_binary prec emax x
  && leb (lit 20 1) x && leb x (lit 164 1)
  && match x with
     | S754_finite false m e => decimal_digits m e 1 =? k
     | _ => false
     end.

(** The tenths of the result, from the inputs as integers at scale
    [2^-51]. *)
Definition tenths_int (Mm Ms Mn : Z) : Z :=
  div_pow2_half_even (sround (formula_int Mm Ms Mn) * 10) 104.

(** The float of [k / 10] has a smaller value than that of [(k + 1) / 10]. *)
Definition tenths_step_ok (k : Z) : bool :=
  units (lit k 1) <? units (lit (k + 1) 1).

(* ================================================================== *)
(** * The formula on exact values *)
(* ================================================================== *)

(** The specification's [round(measured + 0.8 * (normal - serum), 1)]
    written out as arithmetic on the exact values of the three floats,
    [M], [S] and [N] in units of [2^-1074], with no reference to the
    operations the handler calls.  Each of the three operations gives
    the 53-bit number nearest to its exact result, ties to even
    ([sround]); [0.8] is the float [c08 * 2^-53]; the last step takes the
    nearest tenth, ties to even.  The product and the sum are in units of
    [2^-1127], where they are integers. *)
Definition spec_difference (S N : Z) : Z := sround (N - S).
Definition spec_correction (S N : Z) : Z := sround (c08 * spec_difference S N).
Definition spec_formula (M S N : Z) : Z :=
  sround (M * 2 ^ 53 + spec_correction S N).
Definition spec_tenths (M S N : Z) : Z :=
  div_pow2_half_even (10 * spec_formula M S N) 1127.

(* ================================================================== *)
(** * Binary digits *)
(* ================================================================== *)

Lemma pow2_pos k : 0 <= k -> 0 < 2 ^ k.
Proof. intros. apply Z.pow_pos_nonneg; lia. Qed.

(** [digits2_pos] counts the binary digits of a positive number. *)
Lemma digits2_pos_size p : digits2_pos p = Pos.size p.
Proof. induction p; simpl; congruence. Qed.

Lemma digits2_bounds p :
  2 ^ (Zpos (digits2_pos p) - 1) <= Zpos p < 2 ^ Zpos (digits2_pos p).
Proof.
  rewrite digits2_pos_size. split.
  - pose proof (Pos.size_le p) as H.
    assert (Hp : (2 ^ Pos.size p <= p~0)%positive) by exact H.
    apply Pos2Z.pos_le_pos in Hp. rewrite Pos2Z.inj_pow in Hp.
    replace (Zpos (Pos.size p)) with (Z.succ (Zpos (Pos.size p) - 1)) in Hp by lia.
    rewrite Z.pow_succ_r in Hp by lia. lia.
  - pose proof (Pos.size_gt p) as H.
    apply Pos2Z.pos_lt_pos in H. now rewrite Pos2Z.inj_pow in H.
Qed.

Lemma digits2_unique p d :
  2 ^ (d - 1) <= Zpos p < 2 ^ d -> Zpos (digits2_pos p) = d.
Proof.
  intros [Hlo Hhi]. pose proof (digits2_bounds p) as [Blo Bhi].
  set (D := Zpos (digits2_pos p)) in *.
  assert (0 < d).
  { destruct (Z_lt_le_dec 0 d) as [|Hd]; auto. exfalso.
    destruct (Z.eq_dec d 0) as [->|]; [simpl in Hhi; lia|].
    rewrite Z.pow_neg_r in Hhi by lia. lia. }
  destruct (Z.lt_trichotomy D d) as [Hc|[Hc|Hc]]; auto; exfalso.
  - assert (2 ^ D <= 2 ^ (d - 1)) by (apply Z.pow_le_mono_r; lia). lia.
  - assert (2 ^ d <= 2 ^ (D - 1)) by (apply Z.pow_le_mono_r; lia). lia.
Qed.

(* ================================================================== *)
(** * The shift to the right that rounding starts with *)
(* ================================================================== *)

(** [iter_pos] and [Pos.iter xO] as plain iteration and as a power of two. *)
Lemma iter_pos_nat {A} (f : A -> A) p x :
  iter_pos f p x = Nat.iter (Pos.to_nat p) f x.
Proof.
  revert x. induction p as [p IH|p IH|]; intros x; cbn [iter_pos].
  - rewrite !IH, Pos2Nat.inj_xI, <- Nat.iter_add, <- Nat.iter_succ_r.
    f_equal. lia.
  - rewrite !IH, Pos2Nat.inj_xO, <- Nat.iter_add. f_equal. lia.
  - reflexivity.
Qed.

Lemma iter_xO_pow2 m d : Zpos (Pos.iter xO m d) = Zpos m * 2 ^ Zpos d.
Proof.
  induction d as [|d IH] using Pos.peano_ind.
  - cbn [Pos.iter]. rewrite Z.pow_1_r. lia.
  - rewrite Pos.iter_succ, Pos2Z.inj_succ, Z.pow_succ_r by lia.
    rewrite Pos2Z.inj_xO, IH. ring.
Qed.

(** One step of [shr]: the mantissa is halved, the bit that falls out is
    the round bit, and the sticky bit remembers every bit lost before. *)
Lemma shr_1_spec m r s :
  0 <= m ->
  shr_1 (Build_shr_record m r s) = Build_shr_record (m / 2) (Z.odd m) (r || s).
Proof.
  intros Hm. rewrite <- Z.div2_div.
  destruct m as [|p|p]; [reflexivity| |lia].
  destruct p; reflexivity.
Qed.

Lemma mod_pow2_succ_zero m k :
  0 <= k ->
  (m mod 2 ^ (k + 1) =? 0) = (m mod 2 ^ k =? 0) && negb (Z.odd (m / 2 ^ k)).
Proof.
  intros Hk. assert (0 < 2 ^ k) by (apply Z.pow_pos_nonneg; lia).
  rewrite Z.pow_add_r, Z.pow_1_r by lia.
  rewrite Z.rem_mul_r by lia.
  pose proof (Z.mod_pos_bound m (2 ^ k) ltac:(lia)).
  rewrite (Zmod_odd (m / 2 ^ k)).
  destruct (Z.odd (m / 2 ^ k)); simpl.
  - rewrite andb_false_r. apply Z.eqb_neq. lia.
  - rewrite andb_true_r. f_equal. lia.
Qed.

(** After [k + 1] steps. *)
Lemma iter_shr_1 k m r s :
  0 <= m ->
  Nat.iter (S k) shr_1 (Build_shr_record m r s) =
  Build_shr_record (m / 2 ^ (Z.of_nat k + 1)) (Z.odd (m / 2 ^ Z.of_nat k))
                   (r || s || negb (m mod 2 ^ Z.of_nat k =? 0)).
Proof.
  intros Hm. induction k as [|k IH].
  - cbn [Nat.iter]. rewrite shr_1_spec by assumption.
    change (Z.of_nat 0) with 0. rewrite Z.pow_0_r, Z.div_1_r, Z.mod_1_r.
    simpl. now rewrite orb_false_r.
  - change (Nat.iter (S (S k)) shr_1 ?x) with (shr_1 (Nat.iter (S k) shr_1 x)).
    rewrite IH. assert (0 < 2 ^ (Z.of_nat k + 1)) by (apply Z.pow_pos_nonneg; lia).
    rewrite shr_1_spec by (apply Z.div_pos; lia).
    rewrite Nat2Z.inj_succ. unfold Z.succ.
    f_equal.
    + rewrite Z.div_div by lia. rewrite <- (Z.pow_1_r 2) at 2.
      now rewrite <- Z.pow_add_r by lia.
    + rewrite (mod_pow2_succ_zero m (Z.of_nat k)) by lia.
      destruct (Z.odd (m / 2 ^ Z.of_nat k)), r, s, (m mod 2 ^ Z.of_nat k =? 0); reflexivity.
Qed.

Lemma shr_spec m e n :
  0 <= m -> 0 < n ->
  shr (Build_shr_record m false false) e n =
  (Build_shr_record (m / 2 ^ n) (Z.odd (m / 2 ^ (n - 1)))
                    (negb (m mod 2 ^ (n - 1) =? 0)), e + n).
Proof.
  intros Hm Hn. destruct n as [|p|p]; try lia.
  unfold shr. rewrite iter_pos_nat.
  destruct (Pos2Nat.is_succ p) as [k Hk]. rewrite Hk.
  rewrite iter_shr_1 by assumption.
  assert (Hp : Z.of_nat k = Zpos p - 1) by lia.
  rewrite Hp. replace (Zpos p - 1 + 1) with (Zpos p) by lia. reflexivity.
Qed.

(** Rounding on the round and sticky bits is [div_pow2_half_even]. *)
Lemma round_loc_spec X n :
  0 <= X -> 0 < n ->
  round_nearest_even (X / 2 ^ n)
    (loc_of_shr_record
       (Build_shr_record (X / 2 ^ n) (Z.odd (X / 2 ^ (n - 1)))
                         (negb (X mod 2 ^ (n - 1) =? 0)))) =
  div_pow2_half_even X n.
Proof.
  intros HX Hn. unfold div_pow2_half_even.
  assert (Hp : 0 < 2 ^ (n - 1)) by (apply Z.pow_pos_nonneg; lia).
  assert (E : 2 ^ n = 2 ^ (n - 1) * 2).
  { replace n with (n - 1 + 1) at 1 by lia. now rewrite Z.pow_add_r, Z.pow_1_r by lia. }
  assert (M : X mod 2 ^ n = X mod 2 ^ (n - 1) + 2 ^ (n - 1) * ((X / 2 ^ (n - 1)) mod 2)).
  { rewrite E. apply Z.rem_mul_r; lia. }
  pose proof (Z.mod_pos_bound X (2 ^ (n - 1)) Hp) as B.
  rewrite (Zmod_odd (X / 2 ^ (n - 1))) in M.
  unfold loc_of_shr_record, round_nearest_even.
  destruct (Z.odd (X / 2 ^ (n - 1))).
  - destruct (Z.eqb_spec (X mod 2 ^ (n - 1)) 0) as [Z0|NZ]; cbn [negb].
    + replace (2 * (X mod 2 ^ n) ?= 2 ^ n) with Eq; [reflexivity|].
      symmetry. apply Z.compare_eq_iff. lia.
    + replace (2 * (X mod 2 ^ n) ?= 2 ^ n) with Gt; [reflexivity|].
      symmetry. apply Z.compare_gt_iff. lia.
  - replace (2 * (X mod 2 ^ n) ?= 2 ^ n) with Lt.
    + destruct (X mod 2 ^ (n - 1) =? 0); reflexivity.
    + symmetry. apply Z.compare_lt_iff. lia.
Qed.

(* ================================================================== *)
(** * Rounding a mantissa to 53 bits *)
(* ================================================================== *)

Lemma half_even_bounds X n :
  0 <= X -> 0 <= n ->
  X / 2 ^ n <= div_pow2_half_even X n <= X / 2 ^ n + 1.
Proof.
  intros HX Hn. unfold div_pow2_half_even.
  destruct (2 * (X mod 2 ^ n) ?= 2 ^ n); [destruct (Z.even _)| |]; lia.
Qed.

Lemma half_even_zero_shift X : div_pow2_half_even X 0 = X.
Proof.
  unfold div_pow2_half_even. rewrite Z.pow_0_r, Z.div_1_r, Z.mod_1_r. reflexivity.
Qed.

(** The nearest integer, and the even one on a tie. *)
Lemma half_even_nearest X n :
  0 <= X -> 0 <= n ->
  2 * Z.abs (X - div_pow2_half_even X n * 2 ^ n) <= 2 ^ n
  /\ (2 * Z.abs (X - div_pow2_half_even X n * 2 ^ n) = 2 ^ n ->
      Z.even (div_pow2_half_even X n) = true).
Proof.
  intros HX Hn. pose proof (pow2_pos n Hn) as Hp.
  pose proof (Z.div_mod X (2 ^ n) ltac:(lia)) as E.
  pose proof (Z.mod_pos_bound X (2 ^ n) Hp) as B.
  unfold div_pow2_half_even.
  destruct (Z.compare_spec (2 * (X mod 2 ^ n)) (2 ^ n)) as [T|L|G].
  - destruct (Z.even (X / 2 ^ n)) eqn:Ev.
    + split; [lia|auto].
    + split; [lia|]. intros _. rewrite Z.even_add, Ev. reflexivity.
  - split; lia.
  - split; lia.
Qed.

Lemma div_pow2_digits mx n :
  Zpos (digits2_pos mx) = 53 + n -> 0 <= n ->
  2 ^ 52 <= Zpos mx / 2 ^ n < 2 ^ 53.
Proof.
  intros Hd Hn. pose proof (digits2_bounds mx) as [Lo Hi]. rewrite Hd in Lo, Hi.
  assert (0 < 2 ^ n) by (apply Z.pow_pos_nonneg; lia).
  replace (53 + n - 1) with (52 + n) in Lo by lia.
  rewrite Z.pow_add_r in Lo, Hi by lia. split.
  - apply Z.div_le_lower_bound; lia.
  - apply Z.div_lt_upper_bound; lia.
Qed.

(** [binary_round_aux] on a mantissa of [53 + n] bits, away from
    underflow and overflow: [n] bits are shifted out and rounded to even;
    when the rounded mantissa reaches [2^53] it is renormalised. *)
Lemma binary_round_aux_correct s mx ex n :
  Zpos (digits2_pos mx) = 53 + n -> 0 <= n ->
  -1074 <= ex + n -> ex + n + 1 <= 971 ->
  exists m' e',
    binary_round_aux prec emax s (Zpos mx) ex loc_Exact = S754_finite s m' e'
    /\ Zpos (digits2_pos m') = 53
    /\ ex + n <= e' <= ex + n + 1
    /\ Zpos m' * 2 ^ (e' - ex) = div_pow2_half_even (Zpos mx) n * 2 ^ n.
Proof.
  intros Hd Hn Hlo Hhi.
  pose proof (div_pow2_digits mx n Hd Hn) as Hq.
  pose proof (half_even_bounds (Zpos mx) n ltac:(lia) Hn) as Hr.
  set (q := div_pow2_half_even (Zpos mx) n) in *.
  assert (E1 : shr_fexp prec emax (Zpos mx) ex loc_Exact
               = shr (Build_shr_record (Zpos mx) false false) ex n).
  { unfold shr_fexp, shr_record_of_loc, Zdigits2. rewrite Hd.
    f_equal. unfold fexp, emin, prec, emax. lia. }
  assert (E2 : exists mrs, shr (Build_shr_record (Zpos mx) false false) ex n = (mrs, ex + n)
               /\ round_nearest_even (shr_m mrs) (loc_of_shr_record mrs) = q).
  { destruct (Z.eq_dec n 0) as [->|Hn0].
    - eexists. split; [cbn [shr]; f_equal; lia|].
      cbn. unfold q. now rewrite half_even_zero_shift.
    - rewrite shr_spec by lia. eexists. split; [reflexivity|].
      cbn [shr_m]. apply round_loc_spec; lia. }
  destruct E2 as (mrs & E2 & E3).
  unfold binary_round_aux. rewrite E1, E2, E3.
  destruct q as [|qp|qp] eqn:Eq; try lia.
  destruct (Z.eq_dec (Zpos qp) (2 ^ 53)) as [Hc|Hc].
  - (* the rounded mantissa carries into a 54th bit *)
    assert (qp = 9007199254740992%positive) by (change (2 ^ 53) with 9007199254740992 in Hc; congruence).
    subst qp.
    exists 4503599627370496%positive, (ex + n + 1).
    assert (E4 : shr_fexp prec emax 9007199254740992 (ex + n) loc_Exact
                 = (Build_shr_record 4503599627370496 false false, ex + n + 1)).
    { unfold shr_fexp, shr_record_of_loc. change (Zdigits2 9007199254740992) with 54.
      replace (fexp prec emax (54 + (ex + n)) - (ex + n)) with 1
        by (unfold fexp, emin, prec, emax; lia).
      reflexivity. }
    rewrite E4. cbn [shr_m].
    replace (ex + n + 1 <=? emax - prec) with true
      by (symmetry; apply Z.leb_le; unfold emax, prec; lia).
    repeat split; try lia.
    replace (ex + n + 1 - ex) with (n + 1) by lia.
    rewrite Z.pow_add_r by lia. change (2 ^ 1) with 2. lia.
  - exists qp, (ex + n).
    assert (Dq : Zpos (digits2_pos qp) = 53).
    { apply digits2_unique. change (53 - 1) with 52. lia. }
    assert (E4 : shr_fexp prec emax (Zpos qp) (ex + n) loc_Exact
                 = (Build_shr_record (Zpos qp) false false, ex + n)).
    { unfold shr_fexp, shr_record_of_loc, Zdigits2. rewrite Dq.
      replace (fexp prec emax (53 + (ex + n)) - (ex + n)) with 0
        by (unfold fexp, emin, prec, emax; lia).
      reflexivity. }
    rewrite E4. cbn [shr_m].
    replace (ex + n <=? emax - prec) with true
      by (symmetry; apply Z.leb_le; unfold emax, prec; lia).
    repeat split; try lia.
    replace (ex + n - ex) with n by lia. reflexivity.
Qed.

(* ================================================================== *)
(** * Rounding as a function on integers *)
(* ================================================================== *)

Lemma Zdigits2_pos_bounds X :
  0 < X -> 2 ^ (Zdigits2 X - 1) <= X < 2 ^ Zdigits2 X.
Proof. destruct X as [|p|p]; try lia. intros _. apply digits2_bounds. Qed.

Lemma Zdigits2_unique X d :
  2 ^ (d - 1) <= X < 2 ^ d -> 0 < X -> Zdigits2 X = d.
Proof. destruct X as [|p|p]; try lia. intros H _. now apply digits2_unique. Qed.

Lemma Zdigits2_positive X : 0 < X -> 0 < Zdigits2 X.
Proof. destruct X; simpl; lia. Qed.

Lemma Zdigits2_scale X j :
  0 < X -> 0 <= j -> Zdigits2 (X * 2 ^ j) = Zdigits2 X + j.
Proof.
  intros HX Hj. pose proof (Zdigits2_pos_bounds X HX) as [Lo Hi].
  pose proof (Zdigits2_positive X HX). pose proof (pow2_pos j Hj).
  apply Zdigits2_unique; [|lia].
  replace (Zdigits2 X + j - 1) with (Zdigits2 X - 1 + j) by lia.
  rewrite !Z.pow_add_r by lia. split; nia.
Qed.

Lemma Zdigits2_le X k : 0 <= k -> Z.abs X < 2 ^ k -> Zdigits2 X <= k.
Proof.
  intros Hk HX.
  assert (G : forall p, Zpos p < 2 ^ k -> Zpos (digits2_pos p) <= k).
  { intros p Hp. pose proof (digits2_bounds p) as [Lo _].
    destruct (Z_le_gt_dec (Zpos (digits2_pos p)) k); auto. exfalso.
    assert (2 ^ k <= 2 ^ (Zpos (digits2_pos p) - 1)) by (apply Z.pow_le_mono_r; lia).
    lia. }
  destruct X as [|p|p]; simpl; [lia| |]; apply G; simpl in HX; lia.
Qed.

Lemma half_even_scale X n j :
  0 <= n -> 0 <= j ->
  div_pow2_half_even (X * 2 ^ j) (n + j) = div_pow2_half_even X n.
Proof.
  intros Hn Hj. unfold div_pow2_half_even.
  pose proof (pow2_pos n Hn). pose proof (pow2_pos j Hj).
  rewrite Z.pow_add_r by lia.
  rewrite Z.div_mul_cancel_r by lia.
  rewrite Z.mul_mod_distr_r by lia.
  replace (2 * (X mod 2 ^ n * 2 ^ j)) with (2 * (X mod 2 ^ n) * 2 ^ j) by ring.
  rewrite <- Zmult_compare_compat_r by lia. reflexivity.
Qed.

Lemma half_even_mono X Y n :
  0 <= n -> X <= Y -> div_pow2_half_even X n <= div_pow2_half_even Y n.
Proof.
  intros Hn HXY. pose proof (pow2_pos n Hn) as Hp.
  unfold div_pow2_half_even.
  pose proof (Z.div_le_mono X Y (2 ^ n) Hp HXY) as Hq.
  pose proof (Z.div_mod X (2 ^ n) ltac:(lia)) as EX.
  pose proof (Z.div_mod Y (2 ^ n) ltac:(lia)) as EY.
  pose proof (Z.mod_pos_bound X (2 ^ n) Hp).
  pose proof (Z.mod_pos_bound Y (2 ^ n) Hp).
  destruct (Z.eq_dec (X / 2 ^ n) (Y / 2 ^ n)) as [E|NE].
  - rewrite E in *.
    assert (X mod 2 ^ n <= Y mod 2 ^ n) by lia.
    destruct (Z.compare_spec (2 * (X mod 2 ^ n)) (2 ^ n));
      destruct (Z.compare_spec (2 * (Y mod 2 ^ n)) (2 ^ n));
      destruct (Z.even (Y / 2 ^ n)); lia.
  - destruct (2 * (X mod 2 ^ n) ?= 2 ^ n); destruct (2 * (Y mod 2 ^ n) ?= 2 ^ n);
      destruct (Z.even (X / 2 ^ n)); destruct (Z.even (Y / 2 ^ n)); lia.
Qed.

Lemma round_int_small X : Zdigits2 X <= 53 -> round_int X = X.
Proof. intros H. unfold round_int. apply Z.leb_le in H. now rewrite H. Qed.

Lemma round_int_large X :
  53 < Zdigits2 X ->
  round_int X = div_pow2_half_even X (Zdigits2 X - 53) * 2 ^ (Zdigits2 X - 53).
Proof. intros H. unfold round_int. apply Z.leb_gt in H. now rewrite H. Qed.

Lemma round_int_bounds X :
  0 < X -> 2 ^ (Zdigits2 X - 1) <= round_int X <= 2 ^ Zdigits2 X.
Proof.
  intros HX. pose proof (Zdigits2_pos_bounds X HX) as [Lo Hi].
  destruct (Z_le_gt_dec (Zdigits2 X) 53) as [Hd|Hd].
  - rewrite round_int_small by assumption. lia.
  - rewrite round_int_large by lia.
    set (n := Zdigits2 X - 53) in *.
    assert (Hn : 0 <= n) by lia. pose proof (pow2_pos n Hn).
    pose proof (half_even_bounds X n ltac:(lia) Hn) as [B1 B2].
    replace (Zdigits2 X - 1) with (52 + n) in * by lia.
    replace (Zdigits2 X) with (53 + n) in * by lia.
    rewrite Z.pow_add_r in * by lia.
    assert (2 ^ 52 <= X / 2 ^ n) by (apply Z.div_le_lower_bound; lia).
    assert (X / 2 ^ n < 2 ^ 53) by (apply Z.div_lt_upper_bound; lia).
    split; [|rewrite (Z.pow_add_r 2 53 n) by lia];
      apply Z.mul_le_mono_nonneg_r; lia.
Qed.

Lemma round_int_scale X j :
  0 < X -> 0 <= j -> round_int (X * 2 ^ j) = round_int X * 2 ^ j.
Proof.
  intros HX Hj. pose proof (pow2_pos j Hj).
  pose proof (Zdigits2_scale X j HX Hj) as Hd.
  pose proof (Zdigits2_positive X HX).
  destruct (Z_le_gt_dec (Zdigits2 X + j) 53) as [H1|H1].
  - rewrite !round_int_small by lia. reflexivity.
  - rewrite (round_int_large (X * 2 ^ j)) by lia. rewrite Hd.
    destruct (Z_le_gt_dec (Zdigits2 X) 53) as [H2|H2].
    + rewrite (round_int_small X) by assumption.
      set (n' := Zdigits2 X + j - 53).
      assert (Hn' : 0 <= n' <= j) by (unfold n'; lia).
      assert (P : X * 2 ^ j = X * 2 ^ (j - n') * 2 ^ n').
      { rewrite <- Z.mul_assoc, <- Z.pow_add_r by lia. do 2 f_equal. lia. }
      pose proof (half_even_scale (X * 2 ^ (j - n')) 0 n' ltac:(lia) ltac:(lia)) as E.
      rewrite half_even_zero_shift, Z.add_0_l, <- P in E.
      rewrite E. symmetry. exact P.
    + rewrite (round_int_large X) by lia.
      replace (Zdigits2 X + j - 53) with (Zdigits2 X - 53 + j) by lia.
      rewrite half_even_scale by lia.
      rewrite Z.pow_add_r by lia. ring.
Qed.

Lemma round_int_mono X Y :
  0 < X -> X <= Y -> round_int X <= round_int Y.
Proof.
  intros HX HXY.
  pose proof (Zdigits2_pos_bounds X HX) as [LX HiX].
  pose proof (Zdigits2_pos_bounds Y ltac:(lia)) as [LY HiY].
  pose proof (round_int_bounds X HX) as [_ BX].
  pose proof (round_int_bounds Y ltac:(lia)) as [BY _].
  destruct (Z.lt_trichotomy (Zdigits2 X) (Zdigits2 Y)) as [Hc|[Hc|Hc]].
  - assert (2 ^ Zdigits2 X <= 2 ^ (Zdigits2 Y - 1)) by (apply Z.pow_le_mono_r; lia). lia.
  - destruct (Z_le_gt_dec (Zdigits2 X) 53) as [Hd|Hd].
    + rewrite !round_int_small by lia. assumption.
    + rewrite !round_int_large by lia. rewrite <- Hc.
      apply Z.mul_le_mono_nonneg_r; [apply Z.lt_le_incl, pow2_pos; lia|].
      apply half_even_mono; lia.
  - exfalso.
    assert (2 ^ Zdigits2 Y <= 2 ^ (Zdigits2 X - 1)) by (apply Z.pow_le_mono_r; lia). lia.
Qed.

(** [binary_round] produces a 53-bit mantissa whose value is
    [round_int X * 2^e]. *)
Lemma binary_round_correct s X e :
  -1022 <= e -> Zpos (digits2_pos X) + e <= 1023 ->
  exists m ex,
    binary_round prec emax s X e = S754_finite s m ex
    /\ Zpos (digits2_pos m) = 53
    /\ -1074 <= ex <= 971
    /\ e - 52 <= ex
    /\ Zpos m * 2 ^ (ex + 1074) = round_int (Zpos X) * 2 ^ (e + 1074).
Proof.
  intros He Hd.
  pose proof (Zdigits2_positive (Zpos X) ltac:(lia)) as Hd0. cbn [Zdigits2] in Hd0.
  set (d := Zpos (digits2_pos X)) in *.
  assert (F : fexp prec emax (d + e) - e = d - 53)
    by (unfold fexp, emin, prec, emax; lia).
  unfold binary_round, shl_align. fold d. rewrite F.
  destruct (Z_le_gt_dec d 53) as [Hs|Hl].
  - (* at most 53 bits: the mantissa is shifted left, nothing is lost *)
    assert (A : exists mz,
               match d - 53 with
               | Zneg k => (Pos.iter xO X k, fexp prec emax (d + e))
               | _ => (X, e)
               end = (mz, e - (53 - d))
               /\ Zpos mz = Zpos X * 2 ^ (53 - d)).
    { destruct (d - 53) as [|k|k] eqn:Ek; try lia.
      - exists X. replace (53 - d) with 0 by lia.
        split; [f_equal; lia | rewrite Z.pow_0_r; lia].
      - exists (Pos.iter xO X k). split.
        + f_equal. unfold fexp, emin, prec, emax. lia.
        + rewrite iter_xO_pow2. do 2 f_equal. lia. }
    destruct A as (mz & -> & Emz).
    assert (Dz : Zpos (digits2_pos mz) = 53 + 0).
    { change (Zpos (digits2_pos mz)) with (Zdigits2 (Zpos mz)).
      rewrite Emz, Zdigits2_scale by lia. cbn [Zdigits2]. fold d. lia. }
    destruct (binary_round_aux_correct s mz (e - (53 - d)) 0 Dz ltac:(lia) ltac:(lia) ltac:(lia))
      as (m' & e' & E & Dm & Be & V).
    exists m', e'. rewrite half_even_zero_shift, Z.pow_0_r, Z.mul_1_r in V.
    repeat split; try assumption; try lia.
    rewrite round_int_small by (cbn [Zdigits2]; fold d; lia).
    replace (e' + 1074) with (e' - (e - (53 - d)) + (e - (53 - d) + 1074)) by lia.
    rewrite Z.pow_add_r, Z.mul_assoc, V, Emz, <- Z.mul_assoc, <- Z.pow_add_r by lia.
    do 2 f_equal. lia.
  - (* more than 53 bits: the mantissa is rounded *)
    destruct (d - 53) as [|k|k] eqn:Ek; try lia.
    assert (Dx : Zpos (digits2_pos X) = 53 + Zpos k) by (fold d; lia).
    destruct (binary_round_aux_correct s X e (Zpos k) Dx ltac:(lia) ltac:(lia) ltac:(lia))
      as (m' & e' & E & Dm & Be & V).
    exists m', e'. repeat split; try assumption; try lia.
    rewrite round_int_large by (cbn [Zdigits2]; fold d; lia).
    cbn [Zdigits2]. fold d. rewrite Ek, <- V.
    replace (e' + 1074) with (e' - e + (e + 1074)) by lia.
    rewrite Z.pow_add_r by lia. ring.
Qed.

(* ================================================================== *)
(** * Signed rounding *)
(* ================================================================== *)

Lemma sround_0 : sround 0 = 0.
Proof. reflexivity. Qed.

Lemma sround_pos X : 0 < X -> sround X = round_int X.
Proof. destruct X as [|p|p]; try lia. intros _. unfold sround. cbn [Z.sgn Z.abs]. lia. Qed.

Lemma sround_opp X : sround (- X) = - sround X.
Proof. unfold sround. rewrite Z.sgn_opp, Z.abs_opp. ring. Qed.

Lemma sround_sign_pos X : 0 < X -> 0 < sround X.
Proof.
  intros HX. rewrite sround_pos by assumption.
  pose proof (round_int_bounds X HX) as [Lo _].
  pose proof (Zdigits2_positive X HX).
  pose proof (pow2_pos (Zdigits2 X - 1) ltac:(lia)). lia.
Qed.

Lemma sround_scale X j : 0 <= j -> sround (X * 2 ^ j) = sround X * 2 ^ j.
Proof.
  intros Hj. pose proof (pow2_pos j Hj).
  destruct X as [|p|p].
  - reflexivity.
  - rewrite !sround_pos by lia. apply round_int_scale; lia.
  - change (Zneg p) with (- Zpos p). rewrite Z.mul_opp_l, !sround_opp.
    rewrite !sround_pos by lia. rewrite round_int_scale by lia. ring.
Qed.

Lemma sround_mono X Y : X <= Y -> sround X <= sround Y.
Proof.
  intros HXY.
  destruct X as [|p|p]; destruct Y as [|q|q]; try lia.
  - pose proof (sround_sign_pos (Zpos q) ltac:(lia)). rewrite sround_0. lia.
  - rewrite !sround_pos by lia. apply round_int_mono; lia.
  - change (Zneg p) with (- Zpos p). rewrite sround_opp, sround_0.
    pose proof (sround_sign_pos (Zpos p) ltac:(lia)). lia.
  - change (Zneg p) with (- Zpos p). rewrite sround_opp.
    pose proof (sround_sign_pos (Zpos p) ltac:(lia)).
    pose proof (sround_sign_pos (Zpos q) ltac:(lia)). lia.
  - change (Zneg p) with (- Zpos p). change (Zneg q) with (- Zpos q).
    rewrite !sround_opp, !sround_pos by lia.
    pose proof (round_int_mono (Zpos q) (Zpos p) ltac:(lia) ltac:(lia)). lia.
Qed.

Lemma fits_small X : Z.abs X < 2 ^ 53 -> fits X.
Proof.
  intros H. unfold fits, sround.
  rewrite round_int_small.
  - destruct X; simpl; lia.
  - apply Zdigits2_le; lia.
Qed.

(* ================================================================== *)
(** * Floats in normal form and their values *)
(* ================================================================== *)

(** The float of an integer at a scale is in normal form and its value
    is the rounded integer. *)
Lemma of_int_correct X e :
  normal_range X e ->
  nf (of_int X e) /\ exponent_ge (e - 52) (of_int X e)
  /\ units (of_int X e) = sround X * 2 ^ (e + 1074).
Proof.
  intros [He Hd]. unfold of_int, binary_normalize.
  destruct X as [|p|p].
  - repeat split; reflexivity.
  - destruct (binary_round_correct false p e He Hd) as (m & ex & -> & Dm & Be & Bl & V).
    split; [split; assumption|]. split; [exact Bl|].
    rewrite sround_pos by lia. exact V.
  - destruct (binary_round_correct true p e He Hd) as (m & ex & -> & Dm & Be & Bl & V).
    split; [split; assumption|]. split; [exact Bl|].
    change (Zneg p) with (- Zpos p). rewrite sround_opp, sround_pos by lia.
    cbn [units cond_Zopp]. rewrite V. ring.
Qed.

(** Among 53-bit mantissas the order of values is the order of
    exponents, then of mantissas. *)
Lemma mant_exp_lt m1 e1 m2 e2 :
  Zpos (digits2_pos m1) = 53 -> Zpos (digits2_pos m2) = 53 ->
  -1074 <= e1 -> e1 < e2 ->
  Zpos m1 * 2 ^ (e1 + 1074) < Zpos m2 * 2 ^ (e2 + 1074).
Proof.
  intros D1 D2 H1 H12.
  pose proof (digits2_bounds m1) as [_ B1]. pose proof (digits2_bounds m2) as [B2 _].
  rewrite D1 in B1. rewrite D2 in B2. change (53 - 1) with 52 in B2.
  pose proof (pow2_pos (e1 + 1074) ltac:(lia)) as P1.
  pose proof (pow2_pos (e2 - e1 - 1) ltac:(lia)) as P2.
  replace (e2 + 1074) with (e2 - e1 - 1 + 1 + (e1 + 1074)) by lia.
  rewrite (Z.pow_add_r 2 (e2 - e1 - 1 + 1) (e1 + 1074)) by lia.
  rewrite (Z.pow_add_r 2 (e2 - e1 - 1) 1) by lia. change (2 ^ 1) with 2.
  set (a := 2 ^ (e1 + 1074)) in *. set (b := 2 ^ (e2 - e1 - 1)) in *.
  apply Z.lt_le_trans with (2 ^ 53 * a).
  - apply Z.mul_lt_mono_pos_r; lia.
  - rewrite Z.mul_assoc. apply Z.mul_le_mono_nonneg_r; [lia|].
    change (2 ^ 53) with (2 ^ 52 * 1 * 2). rewrite Z.mul_assoc.
    apply Z.mul_le_mono_nonneg_r; [lia|].
    apply Z.mul_le_mono_nonneg; lia.
Qed.

Lemma mant_exp_cases m1 e1 m2 e2 :
  Zpos (digits2_pos m1) = 53 -> Zpos (digits2_pos m2) = 53 ->
  -1074 <= e1 -> -1074 <= e2 ->
  (Zpos m1 * 2 ^ (e1 + 1074) <= Zpos m2 * 2 ^ (e2 + 1074)
   <-> e1 < e2 \/ (e1 = e2 /\ Zpos m1 <= Zpos m2)).
Proof.
  intros D1 D2 H1 H2. split.
  - intros H. destruct (Z.lt_trichotomy e1 e2) as [Hc|[Hc|Hc]]; auto.
    + right. split; auto. subst e2.
      pose proof (pow2_pos (e1 + 1074) ltac:(lia)). nia.
    + pose proof (mant_exp_lt m2 e2 m1 e1 D2 D1 H2 Hc). lia.
  - intros [Hc|[-> Hc]].
    + pose proof (mant_exp_lt m1 e1 m2 e2 D1 D2 H1 Hc). lia.
    + pose proof (pow2_pos (e2 + 1074) ltac:(lia)). nia.
Qed.

Lemma units_finite_pos m e : -1074 <= e -> 0 < Zpos m * 2 ^ (e + 1074).
Proof. intros. pose proof (pow2_pos (e + 1074) ltac:(lia)). nia. Qed.

Lemma nf_units_inj x y : nf x -> nf y -> units x = units y -> x = y.
Proof.
  destruct x as [sx| | |sx mx ex]; destruct y as [sy| | |sy my ey];
    cbn [nf units]; try tauto.
  - congruence.
  - intros _ [_ [B _]] U. pose proof (units_finite_pos my ey B).
    destruct sy; cbn [cond_Zopp] in U; lia.
  - intros [_ [B _]] _ U. pose proof (units_finite_pos mx ex B).
    destruct sx; cbn [cond_Zopp] in U; lia.
  - intros [Dx [Bx _]] [Dy [By _]] U.
    pose proof (units_finite_pos mx ex Bx). pose proof (units_finite_pos my ey By).
    assert (sx = sy) by (destruct sx, sy; cbn [cond_Zopp] in U; auto; lia).
    subst sy.
    assert (E : Zpos mx * 2 ^ (ex + 1074) = Zpos my * 2 ^ (ey + 1074))
      by (destruct sx; cbn [cond_Zopp] in U; lia).
    destruct (proj1 (mant_exp_cases mx ex my ey Dx Dy Bx By) ltac:(lia)) as [Hc|[He Hm]].
    + pose proof (mant_exp_lt mx ex my ey Dx Dy Bx Hc). lia.
    + destruct (proj1 (mant_exp_cases my ey mx ex Dy Dx By Bx) ltac:(lia)) as [Hc|[_ Hm']];
        [lia|].
      subst ey. f_equal. lia.
Qed.

Lemma leb_finite_same_sign_pos m1 e1 m2 e2 :
  leb (S754_finite false m1 e1) (S754_finite false m2 e2) = true
  <-> e1 < e2 \/ (e1 = e2 /\ Zpos m1 <= Zpos m2).
Proof.
  unfold leb, SFleb, SFcompare.
  destruct (Z.compare_spec e1 e2) as [E|L|G].
  - change (Pos.compare_cont Eq m1 m2) with (Pos.compare m1 m2).
    destruct (Pos.compare_spec m1 m2); split; intros; try reflexivity; try lia; try discriminate.
  - split; intros; [lia|reflexivity].
  - split; intros; [discriminate|lia].
Qed.

Lemma leb_finite_same_sign_neg m1 e1 m2 e2 :
  leb (S754_finite true m1 e1) (S754_finite true m2 e2) = true
  <-> e2 < e1 \/ (e2 = e1 /\ Zpos m2 <= Zpos m1).
Proof.
  unfold leb, SFleb, SFcompare.
  destruct (Z.compare_spec e1 e2) as [E|L|G].
  - change (Pos.compare_cont Eq m1 m2) with (Pos.compare m1 m2).
    destruct (Pos.compare_spec m1 m2); cbn [CompOpp]; split; intros;
      try reflexivity; try lia; try discriminate.
  - split; intros; [discriminate|lia].
  - split; intros; [lia|reflexivity].
Qed.

(** On floats in normal form [<=] is the order of the values. *)
Lemma nf_units_leb x y :
  nf x -> nf y -> (leb x y = true <-> units x <= units y).
Proof.
  destruct x as [sx| | |sx mx ex]; destruct y as [sy| | |sy my ey];
    cbn [nf units]; try tauto.
  - intros _ _. split; [lia|reflexivity].
  - intros _ [_ [B _]]. pose proof (units_finite_pos my ey B).
    destruct sy; cbn [cond_Zopp]; unfold leb, SFleb, SFcompare;
      split; intros; try reflexivity; try discriminate; lia.
  - intros [_ [B _]] _. pose proof (units_finite_pos mx ex B).
    destruct sx; cbn [cond_Zopp]; unfold leb, SFleb, SFcompare;
      split; intros; try reflexivity; try discriminate; lia.
  - intros [Dx [Bx _]] [Dy [By _]].
    pose proof (units_finite_pos mx ex Bx). pose proof (units_finite_pos my ey By).
    destruct sx, sy; cbn [cond_Zopp].
    + rewrite leb_finite_same_sign_neg.
      rewrite <- (mant_exp_cases my ey mx ex Dy Dx By Bx). lia.
    + unfold leb, SFleb, SFcompare. split; intros; [lia|reflexivity].
    + unfold leb, SFleb, SFcompare. split; intros; [discriminate|lia].
    + rewrite leb_finite_same_sign_pos.
      rewrite <- (mant_exp_cases mx ex my ey Dx Dy Bx By). lia.
Qed.

Lemma Zdigits2_abs X : Zdigits2 (Z.abs X) = Zdigits2 X.
Proof. destruct X; reflexivity. Qed.

Lemma Zdigits2_scale_any X j :
  X <> 0 -> 0 <= j -> Zdigits2 (X * 2 ^ j) = Zdigits2 X + j.
Proof.
  intros HX Hj. rewrite <- (Zdigits2_abs (X * _)), <- (Zdigits2_abs X).
  rewrite Z.abs_mul, (Z.abs_eq (2 ^ j)) by (apply Z.lt_le_incl, pow2_pos; lia).
  apply Zdigits2_scale; lia.
Qed.

Lemma round_int_idem X : 0 < X -> round_int (round_int X) = round_int X.
Proof.
  intros HX.
  destruct (Z_le_gt_dec (Zdigits2 X) 53) as [Hd|Hd].
  - rewrite (round_int_small X) by assumption. now apply round_int_small.
  - rewrite (round_int_large X) by lia.
    set (n := Zdigits2 X - 53). assert (Hn : 0 <= n) by (unfold n; lia).
    pose proof (Zdigits2_pos_bounds X HX) as [Lo Hi].
    pose proof (pow2_pos n Hn).
    replace (Zdigits2 X - 1) with (52 + n) in Lo by (unfold n; lia).
    replace (Zdigits2 X) with (53 + n) in Hi by (unfold n; lia).
    rewrite Z.pow_add_r in Lo, Hi by lia.
    assert (2 ^ 52 <= X / 2 ^ n) by (apply Z.div_le_lower_bound; lia).
    assert (X / 2 ^ n < 2 ^ 53) by (apply Z.div_lt_upper_bound; lia).
    pose proof (half_even_bounds X n ltac:(lia) Hn) as [B1 B2].
    set (q := div_pow2_half_even X n) in *.
    rewrite round_int_scale by lia. f_equal.
    destruct (Z.eq_dec q (2 ^ 53)) as [->|Hq].
    + reflexivity.
    + apply round_int_small. apply Zdigits2_le; lia.
Qed.

Lemma sround_idem X : sround (sround X) = sround X.
Proof.
  destruct X as [|p|p].
  - reflexivity.
  - pose proof (sround_sign_pos (Zpos p) ltac:(lia)).
    rewrite (sround_pos (Zpos p)) in * by lia.
    rewrite sround_pos by lia. apply round_int_idem; lia.
  - change (Zneg p) with (- Zpos p). rewrite !sround_opp. f_equal.
    pose proof (sround_sign_pos (Zpos p) ltac:(lia)).
    rewrite (sround_pos (Zpos p)) in * by lia.
    rewrite sround_pos by lia. apply round_int_idem; lia.
Qed.

Lemma fits_sround X : fits (sround X).
Proof. apply sround_idem. Qed.

Lemma fits_opp X : fits X -> fits (- X).
Proof. unfold fits. rewrite sround_opp. congruence. Qed.

Lemma fits_scale X j : 0 <= j -> fits X -> fits (X * 2 ^ j).
Proof. unfold fits. intros Hj H. rewrite sround_scale by assumption. congruence. Qed.

Lemma sround_abs_le X k : 0 <= k -> Z.abs X <= 2 ^ k -> Z.abs (sround X) <= 2 ^ k.
Proof.
  intros Hk HX.
  assert (P : sround (2 ^ k) = 2 ^ k).
  { replace (2 ^ k) with (1 * 2 ^ k) by ring. now rewrite sround_scale. }
  pose proof (sround_mono X (2 ^ k) ltac:(lia)) as U.
  pose proof (sround_mono (- 2 ^ k) X ltac:(lia)) as L.
  rewrite sround_opp in L. rewrite P in *. lia.
Qed.

Lemma normal_range_bound X e k :
  -1022 <= e -> 0 <= k -> Z.abs X < 2 ^ k -> k + e <= 1023 -> normal_range X e.
Proof.
  intros He Hk HX Hke. split; [assumption|].
  pose proof (Zdigits2_le X k Hk HX). lia.
Qed.

(** A float in normal form is determined by its value. *)
Lemma float_eq_of_int x X e :
  nf x -> normal_range X e -> fits X ->
  units x = X * 2 ^ (e + 1074) ->
  x = of_int X e.
Proof.
  intros Hx Hr Hf U.
  destruct (of_int_correct X e Hr) as (N & _ & V).
  apply nf_units_inj; auto. rewrite V, Hf. exact U.
Qed.

Lemma units_zero_int X e : -1074 <= e -> X * 2 ^ (e + 1074) = 0 -> X = 0.
Proof. intros He H. pose proof (pow2_pos (e + 1074) ltac:(lia)). nia. Qed.

Lemma digits_same_value X e Y f :
  -1074 <= e -> -1074 <= f -> X <> 0 ->
  X * 2 ^ (e + 1074) = Y * 2 ^ (f + 1074) ->
  Zdigits2 X + e = Zdigits2 Y + f.
Proof.
  intros He Hf HX E.
  assert (HY : Y <> 0).
  { intros ->. rewrite Z.mul_0_l in E. apply units_zero_int in E; auto. }
  pose proof (Zdigits2_scale_any X (e + 1074) HX ltac:(lia)) as DX.
  pose proof (Zdigits2_scale_any Y (f + 1074) HY ltac:(lia)) as DY.
  rewrite E in DX. lia.
Qed.

(** Two integers at two scales with the same value give the same float. *)
Lemma of_int_same_value X e Y f :
  -1022 <= e -> normal_range Y f ->
  X * 2 ^ (e + 1074) = Y * 2 ^ (f + 1074) ->
  of_int X e = of_int Y f.
Proof.
  intros He [Hf Hd] E.
  destruct (Z.eq_dec X 0) as [->|HX].
  - rewrite Z.mul_0_l in E. symmetry in E. apply units_zero_int in E; [|lia].
    subst Y. reflexivity.
  - pose proof (digits_same_value X e Y f ltac:(lia) ltac:(lia) HX E) as D.
    assert (Rx : normal_range X e) by (split; lia).
    destruct (of_int_correct X e Rx) as (Nx & _ & Vx).
    destruct (of_int_correct Y f (conj Hf Hd)) as (Ny & _ & Vy).
    apply nf_units_inj; auto. rewrite Vx, Vy.
    rewrite <- !sround_scale by lia. now rewrite E.
Qed.

Lemma of_int_sround X e :
  normal_range X e -> normal_range (sround X) e -> of_int (sround X) e = of_int X e.
Proof.
  intros Rx Rs.
  destruct (of_int_correct X e Rx) as (Nx & _ & Vx).
  destruct (of_int_correct _ e Rs) as (Ns & _ & Vs).
  apply nf_units_inj; auto. rewrite Vx, Vs. now rewrite sround_idem.
Qed.

(** Rounding is monotone. *)
Lemma of_int_mono X Y e :
  normal_range X e -> normal_range Y e -> X <= Y ->
  leb (of_int X e) (of_int Y e) = true.
Proof.
  intros Rx Ry H.
  destruct (of_int_correct X e Rx) as (Nx & _ & Vx).
  destruct (of_int_correct Y e Ry) as (Ny & _ & Vy).
  apply nf_units_leb; auto. rewrite Vx, Vy.
  apply Z.mul_le_mono_nonneg_r.
  - apply Z.lt_le_incl, pow2_pos. destruct Rx. lia.
  - now apply sround_mono.
Qed.

(* ================================================================== *)
(** * The operations on integers at a scale *)
(* ================================================================== *)

Lemma shl_align_fst m e ez :
  ez <= e -> Zpos (fst (shl_align m e ez)) = Zpos m * 2 ^ (e - ez).
Proof.
  intros H. unfold shl_align.
  destruct (ez - e) as [|d|d] eqn:E; try lia; cbn [fst].
  - replace (e - ez) with 0 by lia. rewrite Z.pow_0_r. lia.
  - rewrite iter_xO_pow2. do 2 f_equal. lia.
Qed.

Lemma cond_Zopp_mul s a b : cond_Zopp s a * b = cond_Zopp s (a * b).
Proof. destruct s; cbn [cond_Zopp]; ring. Qed.

Lemma aligned_units s m e ez :
  -1074 <= ez -> ez <= e ->
  cond_Zopp s (Zpos m * 2 ^ (e - ez)) * 2 ^ (ez + 1074)
  = units (S754_finite s m e).
Proof.
  intros H1 H2. cbn [units]. rewrite cond_Zopp_mul. f_equal.
  rewrite <- Z.mul_assoc, <- Z.pow_add_r by lia. do 2 f_equal. lia.
Qed.

Lemma add_finite sx mx ex sy my ey :
  add (S754_finite sx mx ex) (S754_finite sy my ey)
  = of_int (cond_Zopp sx (Zpos mx * 2 ^ (ex - Z.min ex ey))
            + cond_Zopp sy (Zpos my * 2 ^ (ey - Z.min ex ey))) (Z.min ex ey).
Proof.
  unfold add, SFadd, of_int.
  rewrite !shl_align_fst by lia. reflexivity.
Qed.

Lemma sub_finite sx mx ex sy my ey :
  sub (S754_finite sx mx ex) (S754_finite sy my ey)
  = of_int (cond_Zopp sx (Zpos mx * 2 ^ (ex - Z.min ex ey))
            - cond_Zopp sy (Zpos my * 2 ^ (ey - Z.min ex ey))) (Z.min ex ey).
Proof.
  unfold sub, SFsub, of_int.
  rewrite !shl_align_fst by lia. reflexivity.
Qed.

Lemma nf_zero_int x X e :
  nf x -> -1074 <= e -> units x = X * 2 ^ (e + 1074) ->
  match x with S754_zero _ => x = S754_zero false /\ X = 0 | _ => True end.
Proof.
  destruct x; auto. cbn [nf units]. intros -> He U. split; auto.
  symmetry in U. now apply units_zero_int in U.
Qed.

(** Addition of two representable integers at one scale. *)
Lemma add_of_int X Y e :
  -970 <= e -> fits X -> fits Y ->
  normal_range X e -> normal_range Y e -> normal_range (X + Y) e ->
  add (of_int X e) (of_int Y e) = of_int (X + Y) e.
Proof.
  intros He FX FY RX RY RS.
  destruct (of_int_correct X e RX) as (Nx & Ex & Ux). rewrite FX in Ux.
  destruct (of_int_correct Y e RY) as (Ny & Ey & Uy). rewrite FY in Uy.
  pose proof (nf_zero_int _ X e Nx ltac:(lia) Ux) as Zx.
  pose proof (nf_zero_int _ Y e Ny ltac:(lia) Uy) as Zy.
  destruct (of_int X e) as [sx| | |sx mx ex] eqn:EX; try contradiction;
    destruct (of_int Y e) as [sy| | |sy my ey] eqn:EY; try contradiction.
  - destruct Zx as [-> ->], Zy as [-> ->]. reflexivity.
  - destruct Zx as [-> ->]. rewrite Z.add_0_l, EY. reflexivity.
  - destruct Zy as [-> ->]. rewrite Z.add_0_r, EX. reflexivity.
  - cbn [exponent_ge] in Ex, Ey. rewrite add_finite.
    apply of_int_same_value; [lia|assumption|].
    rewrite Z.mul_add_distr_r, !aligned_units by lia.
    rewrite Ux, Uy. ring.
Qed.

Lemma nf_opp s m e : nf (S754_finite s m e) -> nf (S754_finite (negb s) m e).
Proof. auto. Qed.

Lemma normal_range_opp X e : normal_range X e -> normal_range (- X) e.
Proof. unfold normal_range. now rewrite <- (Zdigits2_abs (- X)), Z.abs_opp, Zdigits2_abs. Qed.

(** Subtraction of two representable integers at one scale. *)
Lemma sub_of_int X Y e :
  -970 <= e -> fits X -> fits Y ->
  normal_range X e -> normal_range Y e -> normal_range (X - Y) e ->
  sub (of_int X e) (of_int Y e) = of_int (X - Y) e.
Proof.
  intros He FX FY RX RY RS.
  destruct (of_int_correct X e RX) as (Nx & Ex & Ux). rewrite FX in Ux.
  destruct (of_int_correct Y e RY) as (Ny & Ey & Uy). rewrite FY in Uy.
  pose proof (nf_zero_int _ X e Nx ltac:(lia) Ux) as Zx.
  pose proof (nf_zero_int _ Y e Ny ltac:(lia) Uy) as Zy.
  destruct (of_int X e) as [sx| | |sx mx ex] eqn:EX; try contradiction;
    destruct (of_int Y e) as [sy| | |sy my ey] eqn:EY; try contradiction.
  - destruct Zx as [-> ->], Zy as [-> ->]. reflexivity.
  - destruct Zx as [_ ->]. rewrite Z.sub_0_l.
    change (sub (S754_zero sx) (S754_finite sy my ey)) with (S754_finite (negb sy) my ey).
    apply float_eq_of_int.
    + now apply nf_opp.
    + now apply normal_range_opp.
    + now apply fits_opp.
    + rewrite Z.mul_opp_l, <- Uy. cbn [units]. destruct sy; cbn [negb cond_Zopp]; ring.
  - destruct Zy as [-> ->]. rewrite Z.sub_0_r, EX. reflexivity.
  - cbn [exponent_ge] in Ex, Ey. rewrite sub_finite.
    apply of_int_same_value; [lia|assumption|].
    rewrite Z.mul_sub_distr_r, !aligned_units by lia.
    rewrite Ux, Uy. ring.
Qed.

Lemma Zdigits2_ge X k : 0 < k -> 2 ^ (k - 1) <= X -> k <= Zdigits2 X.
Proof.
  intros Hk H. pose proof (pow2_pos (k - 1) ltac:(lia)).
  pose proof (Zdigits2_pos_bounds X ltac:(lia)) as [_ Hi].
  destruct (Z_le_gt_dec k (Zdigits2 X)); auto. exfalso.
  assert (2 ^ Zdigits2 X <= 2 ^ (k - 1)) by (apply Z.pow_le_mono_r; lia). lia.
Qed.

Lemma binary_round_no_shift s X e :
  53 <= Zpos (digits2_pos X) ->
  binary_round prec emax s X e = binary_round_aux prec emax s (Zpos X) e loc_Exact.
Proof.
  intros H. unfold binary_round, shl_align.
  destruct (fexp prec emax (Zpos (digits2_pos X) + e) - e) eqn:E; try reflexivity.
  exfalso. revert E. unfold fexp, emin, prec, emax. lia.
Qed.

Lemma mul_finite sx mx ex sy my ey :
  Zpos (digits2_pos mx) = 53 ->
  mul (S754_finite sx mx ex) (S754_finite sy my ey)
  = of_int (cond_Zopp (xorb sx sy) (Zpos mx * Zpos my)) (ex + ey).
Proof.
  intros Dx. unfold mul, SFmul, of_int.
  assert (D : 53 <= Zpos (digits2_pos (mx * my))).
  { change (Zpos (digits2_pos (mx * my))) with (Zdigits2 (Zpos (mx * my))).
    apply Zdigits2_ge; [lia|]. pose proof (digits2_bounds mx) as [Lo _].
    rewrite Dx in Lo. rewrite Pos2Z.inj_mul. nia. }
  destruct (xorb sx sy); cbn [cond_Zopp binary_normalize];
    change (- (Zpos mx * Zpos my)) with (Zneg (mx * my));
    change (Zpos mx * Zpos my) with (Zpos (mx * my));
    cbn [binary_normalize]; now rewrite binary_round_no_shift.
Qed.

Lemma pow2_pair a b :
  -1074 <= a -> -1074 <= b -> -1074 <= a + b ->
  2 ^ (a + b + 1074) * 2 ^ 1074 = 2 ^ (a + 1074) * 2 ^ (b + 1074).
Proof. intros. rewrite <- !Z.pow_add_r by lia. f_equal. lia. Qed.

(** Multiplication of a positive representable integer by a representable
    one, each at its own scale. *)
Lemma mul_of_int X Y e f :
  0 < X -> -970 <= e -> -970 <= f -> -918 <= e + f ->
  fits X -> fits Y ->
  normal_range X e -> normal_range Y f -> normal_range (X * Y) (e + f) ->
  mul (of_int X e) (of_int Y f) = of_int (X * Y) (e + f).
Proof.
  intros HX He Hf Hef FX FY RX RY RP.
  destruct (of_int_correct X e RX) as (Nx & Ex & Ux). rewrite FX in Ux.
  destruct (of_int_correct Y f RY) as (Ny & Ey & Uy). rewrite FY in Uy.
  pose proof (nf_zero_int _ Y f Ny ltac:(lia) Uy) as Zy.
  pose proof (pow2_pos (e + 1074) ltac:(lia)) as Pe.
  destruct (of_int X e) as [sx| | |sx mx ex] eqn:EX; try contradiction.
  { cbn [units] in Ux. nia. }
  destruct Nx as [Dx [Bx _]]. cbn [exponent_ge] in Ex.
  pose proof (units_finite_pos mx ex Bx) as Px.
  assert (sx = false) by (destruct sx; auto; cbn [units cond_Zopp] in Ux; nia).
  subst sx. cbn [units cond_Zopp] in Ux.
  destruct (of_int Y f) as [sy| | |sy my ey] eqn:EY; try contradiction.
  - destruct Zy as [-> ->]. rewrite Z.mul_0_r. reflexivity.
  - cbn [exponent_ge] in Ey. destruct Ny as [Dy [By _]].
    rewrite mul_finite by assumption. cbn [xorb].
    apply of_int_same_value; [lia|assumption|].
    cbn [units] in Uy.
    apply (Z.mul_reg_r _ _ (2 ^ 1074)); [pose proof (pow2_pos 1074); lia|].
    rewrite <- !Z.mul_assoc, !pow2_pair by lia.
    replace (X * (Y * (2 ^ (e + 1074) * 2 ^ (f + 1074))))
      with (X * 2 ^ (e + 1074) * (Y * 2 ^ (f + 1074))) by ring.
    rewrite <- Ux, <- Uy. destruct sy; cbn [cond_Zopp]; ring.
Qed.

(* ================================================================== *)
(** * Validated inputs as integers *)
(* ================================================================== *)

Lemma nf_is_finite x : nf x -> is_finite x = true.
Proof. destruct x; cbn; tauto. Qed.

(** A float between two positive normal bounds, as an integer at a scale
    below the exponent of the lower bound. *)
Lemma input_as_int x e0 mlo elo mhi ehi L H :
  is_float x ->
  leb (S754_finite false mlo elo) x = true ->
  leb x (S754_finite false mhi ehi) = true ->
  nf (S754_finite false mlo elo) -> nf (S754_finite false mhi ehi) ->
  -1022 <= e0 <= elo -> ehi <= 970 ->
  Zpos mlo * 2 ^ (elo + 1074) = L * 2 ^ (e0 + 1074) ->
  Zpos mhi * 2 ^ (ehi + 1074) = H * 2 ^ (e0 + 1074) ->
  exists X, x = of_int X e0 /\ fits X /\ L <= X <= H.
Proof.
  intros Vx Hlo Hhi Nlo Nhi He0 Hehi UL UH.
  destruct x as [sx|sx| |sx mx ex]; try discriminate.
  - destruct sx; discriminate.
  - destruct sx; [discriminate|].
    apply leb_finite_same_sign_pos in Hlo as Clo.
    apply leb_finite_same_sign_pos in Hhi as Chi.
    assert (Nx : nf (S754_finite false mx ex)).
    { unfold is_float, valid_binary, bounded, canonical_mantissa in Vx.
      apply andb_true_iff in Vx as [C B].
      apply Z.eqb_eq in C. apply Z.leb_le in B.
      revert C B. unfold fexp, emin, prec, emax. cbn [nf]. lia. }
    pose proof (proj1 (nf_units_leb _ _ Nlo Nx) Hlo) as U1.
    pose proof (proj1 (nf_units_leb _ _ Nx Nhi) Hhi) as U2.
    cbn [units cond_Zopp] in U1, U2. rewrite UL in U1. rewrite UH in U2.
    pose proof (pow2_pos (e0 + 1074) ltac:(lia)) as P0.
    assert (E : Zpos mx * 2 ^ (ex + 1074) = Zpos mx * 2 ^ (ex - e0) * 2 ^ (e0 + 1074)).
    { rewrite <- Z.mul_assoc, <- Z.pow_add_r by lia. do 2 f_equal. lia. }
    destruct Nx as [Dx Bx].
    assert (FX : fits (Zpos mx * 2 ^ (ex - e0))).
    { apply fits_scale; [lia|]. apply fits_small.
      pose proof (digits2_bounds mx) as [_ Hi]. rewrite Dx in Hi. lia. }
    exists (Zpos mx * 2 ^ (ex - e0)). split; [|split].
    + apply float_eq_of_int; auto.
      * split; assumption.
      * split; [lia|]. rewrite Zdigits2_scale by lia. cbn [Zdigits2]. lia.
    + exact FX.
    + rewrite E in U1, U2.
      split; apply (Z.mul_le_mono_pos_r _ _ (2 ^ (e0 + 1074))); assumption.
Qed.

(** Rounding to one decimal place, on a float given as an integer at a
    negative scale. *)
Lemma round_of_int S e :
  fits S -> normal_range S e -> e < 0 ->
  2 ^ 52 <= S < 2 ^ (52 - e) ->
  round (of_int S e) 1 = of_decimal false (div_pow2_half_even (S * 10) (- e)) 1.
Proof.
  intros FS RS He [Slo Shi].
  destruct (of_int_correct S e RS) as (N & _ & U). rewrite FS in U.
  destruct RS as [Re Rd].
  pose proof (pow2_pos (e + 1074) ltac:(lia)) as Pe.
  destruct (of_int S e) as [sx| | |sx mx ex]; try contradiction.
  { cbn [units] in U. nia. }
  destruct N as [Dx [Bx _]]. pose proof (units_finite_pos mx ex Bx) as Px.
  assert (sx = false) by (destruct sx; auto; cbn [units cond_Zopp] in U; nia).
  subst sx. cbn [units cond_Zopp] in U.
  pose proof (digits_same_value (Zpos mx) ex S e Bx ltac:(lia) ltac:(lia) U) as DV.
  cbn [Zdigits2] in DV.
  pose proof (Zdigits2_ge S 53 ltac:(lia) Slo) as D1.
  pose proof (Zdigits2_le S (52 - e) ltac:(lia) ltac:(lia)) as D2.
  assert (Hex : e <= ex < 0) by lia.
  assert (ES : S = Zpos mx * 2 ^ (ex - e)).
  { apply (Z.mul_reg_r _ _ (2 ^ (e + 1074))); [lia|].
    rewrite <- U, <- Z.mul_assoc, <- Z.pow_add_r by lia. do 2 f_equal. lia. }
  cbn [round]. f_equal. unfold decimal_digits.
  destruct ex as [|p|p] eqn:Eex; try lia.
  change (10 ^ Z.of_N 1) with 10.
  rewrite ES. replace (- e) with (Zpos p + (Zneg p - e)) by lia.
  replace (Zpos mx * 2 ^ (Zneg p - e) * 10) with (Zpos mx * 10 * 2 ^ (Zneg p - e)) by ring.
  now rewrite half_even_scale by lia.
Qed.

Lemma lit_0_8 : lit 8 1 = of_int c08 (-53).
Proof. vm_compute. reflexivity. Qed.

Lemma ge_measured : ge measured_calcium_field = S754_finite false 4503599627370496 (-50).
Proof. vm_compute. reflexivity. Qed.
Lemma le_measured : le measured_calcium_field = S754_finite false 7881299347898368 (-49).
Proof. vm_compute. reflexivity. Qed.
Lemma ge_serum : ge serum_albumin_field = S754_finite false 4503599627370496 (-51).
Proof. vm_compute. reflexivity. Qed.
Lemma le_serum : le serum_albumin_field = S754_finite false 6192449487634432 (-50).
Proof. vm_compute. reflexivity. Qed.
Lemma ge_normal : ge normal_albumin_field = S754_finite false 6755399441055744 (-51).
Proof. vm_compute. reflexivity. Qed.
Lemma le_normal : le normal_albumin_field = S754_finite false 5629499534213120 (-50).
Proof. vm_compute. reflexivity. Qed.

Ltac nf_const := split; [reflexivity | lia].

Lemma measured_as_int m :
  is_float m -> in_range measured_calcium_field m = true ->
  exists M, m = of_int M (-51) /\ fits M
            /\ 9007199254740992 <= M <= 31525197391593472.
Proof.
  intros V R. unfold in_range in R. apply andb_true_iff in R as [Lo Hi].
  rewrite ge_measured in Lo. rewrite le_measured in Hi.
  apply (input_as_int m (-51) _ _ _ _ _ _ V Lo Hi); try nf_const; try lia;
    vm_compute; reflexivity.
Qed.

Lemma serum_as_int s :
  is_float s -> in_range serum_albumin_field s = true ->
  exists M, s = of_int M (-51) /\ fits M
            /\ 4503599627370496 <= M <= 12384898975268864.
Proof.
  intros V R. unfold in_range in R. apply andb_true_iff in R as [Lo Hi].
  rewrite ge_serum in Lo. rewrite le_serum in Hi.
  apply (input_as_int s (-51) _ _ _ _ _ _ V Lo Hi); try nf_const; try lia;
    vm_compute; reflexivity.
Qed.

Lemma normal_as_int n :
  is_float n -> in_range normal_albumin_field n = true ->
  exists M, n = of_int M (-51) /\ fits M
            /\ 6755399441055744 <= M <= 11258999068426240.
Proof.
  intros V R. unfold in_range in R. apply andb_true_iff in R as [Lo Hi].
  rewrite ge_normal in Lo. rewrite le_normal in Hi.
  apply (input_as_int n (-51) _ _ _ _ _ _ V Lo Hi); try nf_const; try lia;
    vm_compute; reflexivity.
Qed.

Ltac range_by k :=
  apply (normal_range_bound _ _ k); first [lia | unfold c08; lia].

Lemma formula_int_min_eq :
  formula_int_min = formula_int 9007199254740992 12384898975268864 6755399441055744.
Proof. vm_compute. reflexivity. Qed.

Lemma formula_int_max_eq :
  formula_int_max = formula_int 31525197391593472 4503599627370496 11258999068426240.
Proof. vm_compute. reflexivity. Qed.

Lemma formula_int_bounds Mm Ms Mn :
  9007199254740992 <= Mm <= 31525197391593472 ->
  4503599627370496 <= Ms <= 12384898975268864 ->
  6755399441055744 <= Mn <= 11258999068426240 ->
  formula_int_min <= formula_int Mm Ms Mn <= formula_int_max.
Proof.
  intros Bm Bs Bn. rewrite formula_int_min_eq, formula_int_max_eq. unfold formula_int.
  pose proof (sround_mono (c08 * (6755399441055744 - 12384898975268864)) (c08 * (Mn - Ms))
                ltac:(unfold c08; lia)).
  pose proof (sround_mono (c08 * (Mn - Ms)) (c08 * (11258999068426240 - 4503599627370496))
                ltac:(unfold c08; lia)).
  lia.
Qed.

Lemma formula_int_range X :
  formula_int_min <= X <= formula_int_max -> normal_range X (-104).
Proof. intros H. unfold formula_int_min, formula_int_max in H. range_by 110. Qed.

Lemma tenths_table : forallb tenths_ok (map Z.of_nat (seq 20 145)) = true.
Proof. vm_compute. reflexivity. Qed.

Lemma tenths_ok_range k : 20 <= k <= 164 -> tenths_ok k = true.
Proof.
  intros H. pose proof tenths_table as T. rewrite forallb_forall in T.
  apply T. rewrite <- (Z2Nat.id k) by lia. apply in_map. apply in_seq. lia.
Qed.

(** What the check establishes of each decimal in the table. *)
Lemma tenths_facts k :
  20 <= k <= 164 ->
  is_finite (lit k 1) = true /\ is_float (lit k 1)
  /\ leb (lit 20 1) (lit k 1) = true /\ leb (lit k 1) (lit 164 1) = true
  /\ round (lit k 1) 1 = lit k 1.
Proof.
  intros H. pose proof (tenths_ok_range k H) as T. unfold tenths_ok in T.
  repeat (apply andb_true_iff in T as [T ?]).
  repeat split; auto.
  destruct (lit k 1) as [| | |[|] m e] eqn:E; try discriminate.
  cbn [round]. match goal with H : (_ =? _) = true |- _ => apply Z.eqb_eq in H; rewrite H end.
  exact E.
Qed.

Lemma of_int_finite X e : normal_range X e -> is_finite (of_int X e) = true.
Proof. intros R. apply nf_is_finite. now destruct (of_int_correct X e R). Qed.

(* ================================================================== *)
(** * The formula on integers *)
(* ================================================================== *)

(** The formula on three integers at scale [2^-51] inside the ranges. *)
Lemma formula_of_ints Mm Ms Mn :
  fits Mm -> fits Ms -> fits Mn ->
  9007199254740992 <= Mm <= 31525197391593472 ->
  4503599627370496 <= Ms <= 12384898975268864 ->
  6755399441055744 <= Mn <= 11258999068426240 ->
  sub (of_int Mn (-51)) (of_int Ms (-51)) = of_int (Mn - Ms) (-51)
  /\ mul (lit 8 1) (of_int (Mn - Ms) (-51)) = of_int (c08 * (Mn - Ms)) (-104)
  /\ formula (mkInput (of_int Mm (-51)) (of_int Ms (-51)) (of_int Mn (-51)))
     = of_int (formula_int Mm Ms Mn) (-104).
Proof.
  intros Fm Fs Fn Bm Bs Bn.
  assert (Ed : sub (of_int Mn (-51)) (of_int Ms (-51)) = of_int (Mn - Ms) (-51)).
  { apply sub_of_int; auto; try lia; range_by 54. }
  assert (Fd : fits (Mn - Ms)) by (apply fits_small; lia).
  assert (Ep : mul (lit 8 1) (of_int (Mn - Ms) (-51)) = of_int (c08 * (Mn - Ms)) (-104)).
  { rewrite lit_0_8. change (-104) with (-53 + -51).
    apply mul_of_int; auto; try (unfold c08; lia).
    - apply fits_small. unfold c08. lia.
    - range_by 53.
    - range_by 53.
    - range_by 106. }
  split; [exact Ed|]. split; [exact Ep|].
  unfold formula. cbn [measured_calcium serum_albumin normal_albumin].
  rewrite Ed, Ep.
  assert (Bp : Z.abs (c08 * (Mn - Ms)) <= 2 ^ 106) by (unfold c08; lia).
  pose proof (sround_abs_le _ 106 ltac:(lia) Bp) as Bp'.
  assert (Rp : normal_range (c08 * (Mn - Ms)) (-104)) by range_by 107.
  assert (Rp' : normal_range (sround (c08 * (Mn - Ms))) (-104)) by range_by 107.
  rewrite <- (of_int_sround _ _ Rp Rp').
  assert (Em : of_int Mm (-51) = of_int (Mm * 2 ^ 53) (-104)).
  { apply of_int_same_value; [lia| range_by 108 |].
    rewrite <- Z.mul_assoc. f_equal. }
  rewrite Em. unfold formula_int.
  apply add_of_int; auto; try lia.
  - apply fits_scale; [lia|assumption].
  - apply fits_sround.
  - range_by 108.
  - range_by 109.
Qed.

Lemma sround_formula_int_bounds Mm Ms Mn :
  9007199254740992 <= Mm <= 31525197391593472 ->
  4503599627370496 <= Ms <= 12384898975268864 ->
  6755399441055744 <= Mn <= 11258999068426240 ->
  2 ^ 105 <= sround (formula_int Mm Ms Mn) < 2 ^ 109
  /\ formula_int_min <= sround (formula_int Mm Ms Mn) <= formula_int_max_rounded.
Proof.
  intros Bm Bs Bn.
  pose proof (formula_int_bounds Mm Ms Mn Bm Bs Bn) as B.
  pose proof (sround_mono _ _ (proj1 B)) as L1.
  pose proof (sround_mono _ _ (proj2 B)) as L2.
  replace (sround formula_int_min) with formula_int_min in L1 by (vm_compute; reflexivity).
  change (sround formula_int_max) with formula_int_max_rounded in L2.
  split; [|lia].
  revert L1 L2. unfold formula_int_min, formula_int_max_rounded. lia.
Qed.

Lemma tenths_int_bounds Mm Ms Mn :
  9007199254740992 <= Mm <= 31525197391593472 ->
  4503599627370496 <= Ms <= 12384898975268864 ->
  6755399441055744 <= Mn <= 11258999068426240 ->
  20 <= tenths_int Mm Ms Mn <= 164.
Proof.
  intros Bm Bs Bn.
  destruct (sround_formula_int_bounds Mm Ms Mn Bm Bs Bn) as [_ [L1 L2]].
  unfold tenths_int. set (S' := sround (formula_int Mm Ms Mn)) in *.
  pose proof (half_even_mono (formula_int_min * 10) (S' * 10) 104 ltac:(lia) ltac:(lia)) as K1.
  pose proof (half_even_mono (S' * 10) (formula_int_max_rounded * 10) 104
                ltac:(lia) ltac:(lia)) as K2.
  replace (div_pow2_half_even (formula_int_min * 10) 104) with 20 in K1
    by (vm_compute; reflexivity).
  replace (div_pow2_half_even (formula_int_max_rounded * 10) 104) with 164 in K2
    by (vm_compute; reflexivity).
  lia.
Qed.

(** The result on three integers inside the ranges. *)
Lemma corrected_of_ints Mm Ms Mn :
  fits Mm -> fits Ms -> fits Mn ->
  9007199254740992 <= Mm <= 31525197391593472 ->
  4503599627370496 <= Ms <= 12384898975268864 ->
  6755399441055744 <= Mn <= 11258999068426240 ->
  corrected_calcium
    (calculate_corrected_calcium
       (mkInput (of_int Mm (-51)) (of_int Ms (-51)) (of_int Mn (-51))))
  = lit (tenths_int Mm Ms Mn) 1.
Proof.
  intros Fm Fs Fn Bm Bs Bn.
  unfold calculate_corrected_calcium. cbn [corrected_calcium].
  destruct (formula_of_ints Mm Ms Mn Fm Fs Fn Bm Bs Bn) as (_ & _ & ->).
  pose proof (formula_int_bounds Mm Ms Mn Bm Bs Bn) as B.
  pose proof (formula_int_range _ B) as R.
  destruct (sround_formula_int_bounds Mm Ms Mn Bm Bs Bn) as [N1 _].
  assert (Rs' : normal_range (sround (formula_int Mm Ms Mn)) (-104)) by range_by 110.
  rewrite <- (of_int_sround _ _ R Rs').
  rewrite round_of_int;
    [reflexivity | apply fits_sround | assumption | lia
    | change (52 - -104) with 156; lia].
Qed.

(* ================================================================== *)
(** * The formula on validated inputs *)
(* ================================================================== *)

Section ValidatedInputs.

(** Three floats inside the ranges of the three fields. *)
Variables m s n : float.
Hypothesis Vm : is_float m.
Hypothesis Vs : is_float s.
Hypothesis Vn : is_float n.
Hypothesis Rm : in_range measured_calcium_field m = true.
Hypothesis Rs : in_range serum_albumin_field s = true.
Hypothesis Rn : in_range normal_albumin_field n = true.

(** The three steps of the formula on validated inputs, as integers. *)
Lemma formula_as_int :
  exists Mm Ms Mn,
    9007199254740992 <= Mm <= 31525197391593472
    /\ 4503599627370496 <= Ms <= 12384898975268864
    /\ 6755399441055744 <= Mn <= 11258999068426240
    /\ sub n s = of_int (Mn - Ms) (-51)
    /\ mul (lit 8 1) (sub n s) = of_int (c08 * (Mn - Ms)) (-104)
    /\ formula (mkInput m s n) = of_int (formula_int Mm Ms Mn) (-104).
Proof.
  destruct (measured_as_int m Vm Rm) as (Mm & -> & Fm & Bm).
  destruct (serum_as_int s Vs Rs) as (Ms & -> & Fs & Bs).
  destruct (normal_as_int n Vn Rn) as (Mn & -> & Fn & Bn).
  exists Mm, Ms, Mn. do 3 (split; [assumption|]).
  destruct (formula_of_ints Mm Ms Mn Fm Fs Fn Bm Bs Bn) as (Ed & Ep & Ef).
  split; [exact Ed|]. rewrite Ed. split; [exact Ep | exact Ef].
Qed.

(** The intermediate values of the formula on validated inputs are
    finite. *)
Lemma formula_steps_finite :
  is_finite (sub n s) = true
  /\ is_finite (mul (lit 8 1) (sub n s)) = true
  /\ is_finite (formula (mkInput m s n)) = true.
Proof.
  destruct (formula_as_int)
    as (Mm & Ms & Mn & Bm & Bs & Bn & -> & -> & ->).
  repeat split; apply of_int_finite.
  - range_by 54.
  - range_by 107.
  - apply formula_int_range. now apply formula_int_bounds.
Qed.

(** The formula on validated inputs lies between the floats 2.0 and 16.4. *)
Lemma formula_between :
  leb (lit 20 1) (formula (mkInput m s n)) = true
  /\ leb (formula (mkInput m s n)) (lit 164 1) = true.
Proof.
  destruct (formula_as_int)
    as (Mm & Ms & Mn & Bm & Bs & Bn & _ & _ & ->).
  pose proof (formula_int_bounds Mm Ms Mn Bm Bs Bn) as B.
  pose proof (formula_int_range _ B) as R.
  assert (Rlo : normal_range formula_int_min (-104)) by (apply formula_int_range; lia).
  assert (Rhi : normal_range formula_int_max (-104)) by (apply formula_int_range; lia).
  split.
  - replace (lit 20 1) with (of_int formula_int_min (-104)) by (vm_compute; reflexivity).
    apply of_int_mono; auto; lia.
  - replace (lit 164 1) with (of_int formula_int_max (-104)) by (vm_compute; reflexivity).
    apply of_int_mono; auto; lia.
Qed.

(** The result on validated inputs is the float of a decimal with one
    fractional digit between 2.0 and 16.4. *)
Lemma corrected_calcium_tenths :
  exists k, 20 <= k <= 164
    /\ corrected_calcium (calculate_corrected_calcium (mkInput m s n)) = lit k 1.
Proof.
  destruct (measured_as_int m Vm Rm) as (Mm & -> & Fm & Bm).
  destruct (serum_as_int s Vs Rs) as (Ms & -> & Fs & Bs).
  destruct (normal_as_int n Vn Rn) as (Mn & -> & Fn & Bn).
  exists (tenths_int Mm Ms Mn).
  split; [now apply tenths_int_bounds | now apply corrected_of_ints].
Qed.

End ValidatedInputs.

(* ================================================================== *)
(** * Order and accuracy *)
(* ================================================================== *)

Lemma of_int_leb_inv X Y e :
  fits X -> fits Y -> normal_range X e -> normal_range Y e ->
  leb (of_int X e) (of_int Y e) = true -> X <= Y.
Proof.
  intros FX FY RX RY H.
  destruct (of_int_correct X e RX) as (Nx & _ & Ux).
  destruct (of_int_correct Y e RY) as (Ny & _ & Uy).
  apply (nf_units_leb _ _ Nx Ny) in H. rewrite Ux, Uy, FX, FY in H.
  destruct RX as [He _].
  apply (Z.mul_le_mono_pos_r _ _ (2 ^ (e + 1074))); [apply pow2_pos; lia | exact H].
Qed.

Lemma nf_lit k : 20 <= k <= 164 -> nf (lit k 1).
Proof.
  intros Hk. destruct (tenths_facts k Hk) as (_ & V & Lo & Hi & _).
  replace (lit 20 1) with (S754_finite false 4503599627370496 (-51)) in Lo
    by (vm_compute; reflexivity).
  replace (lit 164 1) with (S754_finite false 4616189618054758 (-48)) in Hi
    by (vm_compute; reflexivity).
  destruct (input_as_int (lit k 1) (-51) _ _ _ _ 4503599627370496 36929516944438064 V Lo Hi)
    as (X & E & FX & BX); try nf_const; try lia; try (vm_compute; reflexivity).
  rewrite E. apply of_int_correct. range_by 56.
Qed.

Lemma tenths_step_table : forallb tenths_step_ok (map Z.of_nat (seq 20 144)) = true.
Proof. vm_compute. reflexivity. Qed.

Lemma units_lit_step k :
  20 <= k < 164 -> units (lit k 1) < units (lit (k + 1) 1).
Proof.
  intros H. pose proof tenths_step_table as T. rewrite forallb_forall in T.
  apply Z.ltb_lt. apply (T k).
  rewrite <- (Z2Nat.id k) by lia. apply in_map. apply in_seq. lia.
Qed.

Lemma units_lit_mono k k' :
  20 <= k -> k <= k' -> k' <= 164 -> units (lit k 1) <= units (lit k' 1).
Proof.
  intros Hk Hkk Hk'.
  replace k' with (k + Z.of_nat (Z.to_nat (k' - k))) in * by lia.
  induction (Z.to_nat (k' - k)) as [|d IH].
  - rewrite Z.add_0_r. lia.
  - rewrite Nat2Z.inj_succ in *.
    pose proof (units_lit_step (k + Z.of_nat d) ltac:(lia)) as St.
    replace (k + Z.succ (Z.of_nat d)) with (k + Z.of_nat d + 1) by lia.
    specialize (IH ltac:(lia) ltac:(lia)). lia.
Qed.

(** The floats of the tenths are ordered as the tenths are. *)
Lemma lit_leb k k' :
  20 <= k -> k <= k' -> k' <= 164 -> leb (lit k 1) (lit k' 1) = true.
Proof.
  intros Hk Hkk Hk'.
  apply nf_units_leb; [apply nf_lit; lia | apply nf_lit; lia |].
  now apply units_lit_mono.
Qed.

Lemma formula_int_mono Mm Ms Mn Mm' Ms' Mn' :
  Mm <= Mm' -> Ms' <= Ms -> Mn <= Mn' ->
  formula_int Mm Ms Mn <= formula_int Mm' Ms' Mn'.
Proof.
  intros Hm Hs Hn. unfold formula_int.
  pose proof (sround_mono (c08 * (Mn - Ms)) (c08 * (Mn' - Ms')) ltac:(unfold c08; lia)).
  lia.
Qed.

Lemma tenths_int_mono Mm Ms Mn Mm' Ms' Mn' :
  Mm <= Mm' -> Ms' <= Ms -> Mn <= Mn' ->
  tenths_int Mm Ms Mn <= tenths_int Mm' Ms' Mn'.
Proof.
  intros Hm Hs Hn. unfold tenths_int.
  pose proof (sround_mono _ _ (formula_int_mono _ _ _ _ _ _ Hm Hs Hn)).
  apply half_even_mono; lia.
Qed.

(** The formula and the result grow with the measured calcium and the
    normal albumin, and fall as the serum albumin grows. *)
Lemma corrected_mono m s n m' s' n' :
  is_float m -> is_float s -> is_float n ->
  in_range measured_calcium_field m = true ->
  in_range serum_albumin_field s = true ->
  in_range normal_albumin_field n = true ->
  is_float m' -> is_float s' -> is_float n' ->
  in_range measured_calcium_field m' = true ->
  in_range serum_albumin_field s' = true ->
  in_range normal_albumin_field n' = true ->
  leb m m' = true -> leb s' s = true -> leb n n' = true ->
  leb (formula (mkInput m s n)) (formula (mkInput m' s' n')) = true
  /\ leb (corrected_calcium (calculate_corrected_calcium (mkInput m s n)))
         (corrected_calcium (calculate_corrected_calcium (mkInput m' s' n'))) = true.
Proof.
  intros Vm Vs Vn Rm Rs Rn Vm' Vs' Vn' Rm' Rs' Rn' Lm Ls Ln.
  destruct (measured_as_int m Vm Rm) as (Mm & -> & Fm & Bm).
  destruct (serum_as_int s Vs Rs) as (Ms & -> & Fs & Bs).
  destruct (normal_as_int n Vn Rn) as (Mn & -> & Fn & Bn).
  destruct (measured_as_int m' Vm' Rm') as (Mm' & -> & Fm' & Bm').
  destruct (serum_as_int s' Vs' Rs') as (Ms' & -> & Fs' & Bs').
  destruct (normal_as_int n' Vn' Rn') as (Mn' & -> & Fn' & Bn').
  apply of_int_leb_inv in Lm; auto; try range_by 56.
  apply of_int_leb_inv in Ls; auto; try range_by 56.
  apply of_int_leb_inv in Ln; auto; try range_by 56.
  split.
  - destruct (formula_of_ints Mm Ms Mn) as (_ & _ & ->); auto.
    destruct (formula_of_ints Mm' Ms' Mn') as (_ & _ & ->); auto.
    apply of_int_mono.
    + apply formula_int_range. now apply formula_int_bounds.
    + apply formula_int_range. now apply formula_int_bounds.
    + now apply formula_int_mono.
  - rewrite !corrected_of_ints by assumption.
    pose proof (tenths_int_bounds Mm Ms Mn Bm Bs Bn).
    pose proof (tenths_int_bounds Mm' Ms' Mn' Bm' Bs' Bn').
    apply lit_leb; try lia. now apply tenths_int_mono.
Qed.

Lemma round_int_error X j :
  0 <= j -> 0 < X < 2 ^ (53 + j) -> 2 * Z.abs (round_int X - X) <= 2 ^ j.
Proof.
  intros Hj [H0 HX]. pose proof (pow2_pos j Hj).
  pose proof (Zdigits2_le X (53 + j) ltac:(lia) ltac:(lia)) as D.
  destruct (Z_le_gt_dec (Zdigits2 X) 53) as [Hd|Hd].
  - rewrite round_int_small by assumption. lia.
  - rewrite round_int_large by lia.
    set (n := Zdigits2 X - 53) in *.
    destruct (half_even_nearest X n ltac:(lia) ltac:(lia)) as [Hn _].
    assert (2 ^ n <= 2 ^ j) by (apply Z.pow_le_mono_r; lia).
    lia.
Qed.

Lemma sround_error X j :
  0 <= j -> Z.abs X < 2 ^ (53 + j) -> 2 * Z.abs (sround X - X) <= 2 ^ j.
Proof.
  intros Hj HX. pose proof (pow2_pos j Hj).
  destruct X as [|p|p].
  - rewrite sround_0. lia.
  - rewrite sround_pos by lia. apply round_int_error; lia.
  - change (Zneg p) with (- Zpos p). rewrite sround_opp, sround_pos by lia.
    pose proof (round_int_error (Zpos p) j Hj ltac:(lia)). lia.
Qed.

(** The tenths returned against the exact value of the formula, both in
    units of [2^-104]: half a tenth, and the rounding errors of the
    three float operations. *)
Lemma tenths_int_accuracy Mm Ms Mn :
  9007199254740992 <= Mm <= 31525197391593472 ->
  4503599627370496 <= Ms <= 12384898975268864 ->
  6755399441055744 <= Mn <= 11258999068426240 ->
  Z.abs (tenths_int Mm Ms Mn * 2 ^ 104 - (5 * Mm + 4 * (Mn - Ms)) * 2 ^ 54)
  <= 2 ^ 103 + 2 ^ 59.
Proof.
  intros Bm Bs Bn.
  destruct (sround_formula_int_bounds Mm Ms Mn Bm Bs Bn) as [N1 _].
  pose proof (formula_int_bounds Mm Ms Mn Bm Bs Bn) as B.
  unfold formula_int_min, formula_int_max in B.
  pose proof (sround_error (formula_int Mm Ms Mn) 56 ltac:(lia) ltac:(lia)) as E2.
  pose proof (sround_error (c08 * (Mn - Ms)) 53 ltac:(lia) ltac:(unfold c08; lia)) as E3.
  destruct (half_even_nearest (sround (formula_int Mm Ms Mn) * 10) 104 ltac:(lia) ltac:(lia))
    as [E1 _].
  fold (tenths_int Mm Ms Mn) in E1.
  unfold formula_int in *.
  set (P := c08 * (Mn - Ms)) in *.
  assert (EP : 10 * P = 2 ^ 56 * (Mn - Ms) + 4 * (Mn - Ms)) by (unfold P, c08; lia).
  set (P' := sround P) in *. set (S' := sround (Mm * 2 ^ 53 + P')) in *.
  set (k := tenths_int Mm Ms Mn) in *.
  lia.
Qed.

(* ================================================================== *)
(** * Validation *)
(* ================================================================== *)

Lemma validate_field_number f x :
  validate_field f (Number x) =
  if in_range f x then inl x
  else inr (mkError (name f)
              (if leb x (le f) then greater_than_equal else less_than_equal)).
Proof.
  unfold validate_field, in_range.
  destruct (leb (ge f) x), (leb x (le f)); reflexivity.
Qed.

(** A field passes exactly when the specification's condition for an
    error does not hold, and an error names its field. *)
Lemma validate_field_spec f v :
  match validate_field f v with
  | inl x => ~ field_rejected f v
             /\ ((v = Absent /\ default f = Some x)
                 \/ (v = Number x /\ in_range f x = true))
  | inr e => field_rejected f v /\ loc e = name f
  end.
Proof.
  destruct v as [| |x]; cbn [field_rejected].
  - cbn [validate_field]. destruct (default f) as [d|].
    + split; [intros H; discriminate|auto].
    + cbn [loc]. auto.
  - cbn [validate_field loc]. auto.
  - rewrite validate_field_number.
    destruct (in_range f x) eqn:E; cbn [loc]; split; auto.
    intros H; discriminate.
Qed.

Lemma validate_ok data input :
  validate data = Ok input ->
  validate_field measured_calcium_field (form_measured_calcium data)
    = inl (measured_calcium input)
  /\ validate_field serum_albumin_field (form_serum_albumin data)
     = inl (serum_albumin input)
  /\ validate_field normal_albumin_field (form_normal_albumin data)
     = inl (normal_albumin input).
Proof.
  unfold validate.
  destruct (validate_field measured_calcium_field _);
    destruct (validate_field serum_albumin_field _);
    destruct (validate_field normal_albumin_field _);
    intros H; inversion H; subst; cbn; auto.
Qed.

Lemma default_is_float : is_float (lit 40 1).
Proof. vm_compute. reflexivity. Qed.

(** What validation guarantees of the validated model. *)
Lemma validated_input data input :
  well_formed data -> validate data = Ok input ->
  (is_float (measured_calcium input) /\ is_float (serum_albumin input)
   /\ is_float (normal_albumin input))
  /\ in_range measured_calcium_field (measured_calcium input) = true
  /\ in_range serum_albumin_field (serum_albumin input) = true
  /\ in_range normal_albumin_field (normal_albumin input) = true.
Proof.
  intros (Wm & Ws & Wn) V. apply validate_ok in V as (Em & Es & En).
  pose proof (validate_field_spec measured_calcium_field (form_measured_calcium data)) as Sm.
  pose proof (validate_field_spec serum_albumin_field (form_serum_albumin data)) as Ss.
  pose proof (validate_field_spec normal_albumin_field (form_normal_albumin data)) as Sn.
  rewrite Em in Sm. rewrite Es in Ss. rewrite En in Sn.
  destruct Sm as [_ [[_ Dm]|[Im Rm]]]; [discriminate|].
  destruct Ss as [_ [[_ Ds]|[Is Rs]]]; [discriminate|].
  rewrite Im in Wm. rewrite Is in Ws. cbn in Wm, Ws.
  destruct Sn as [_ [[_ Dn]|[In Rn]]].
  - cbn in Dn. injection Dn as <-.
    pose proof default_is_float. repeat split; auto.
  - rewrite In in Wn. cbn in Wn. repeat split; auto.
Qed.

Lemma calculate_validated data input :
  validate data = Ok input ->
  calculate data = Ok (calculate_corrected_calcium input).
Proof. unfold calculate. now intros ->. Qed.

Lemma validate_numbers m s n :
  in_range measured_calcium_field m = true ->
  in_range serum_albumin_field s = true ->
  in_range normal_albumin_field n = true ->
  validate (mkForm (Number m) (Number s) (Number n)) = Ok (mkInput m s n).
Proof.
  intros Hm Hs Hn. unfold validate. cbn [form_measured_calcium form_serum_albumin form_normal_albumin].
  rewrite !validate_field_number, Hm, Hs, Hn. reflexivity.
Qed.

(** The two outcomes of the operation, against the specification's
    condition for an error. *)
Lemma calculate_outcome data :
  (~ form_rejected data /\ exists out, calculate data = Ok out)
  \/ (form_rejected data
      /\ exists errors, calculate data = ValidationError errors
           /\ errors <> [] /\ forall e, In e errors -> offending data e).
Proof.
  pose proof (validate_field_spec measured_calcium_field (form_measured_calcium data)) as Sm.
  pose proof (validate_field_spec serum_albumin_field (form_serum_albumin data)) as Ss.
  pose proof (validate_field_spec normal_albumin_field (form_normal_albumin data)) as Sn.
  unfold calculate, validate, form_rejected, offending.
  destruct (validate_field measured_calcium_field _) as [m|em];
    destruct (validate_field serum_albumin_field _) as [s|es];
    destruct (validate_field normal_albumin_field _) as [n|en];
    destruct Sm as [Sm Sm'], Ss as [Ss Ss'], Sn as [Sn Sn'];
    cbn [field_errors app].
  1: left; split; [tauto | eexists; reflexivity].
  all: right; split; [tauto|]; eexists; split; [reflexivity|];
    split; [discriminate|];
    intros e He; cbn [In] in He;
    repeat (destruct He as [<-|He]; [tauto|]); contradiction.
Qed.

Lemma is_float_canonical s m e :
  is_float (S754_finite s m e) ->
  (Zpos (digits2_pos m) = 53 \/ (e = -1074 /\ Zpos (digits2_pos m) < 53))
  /\ -1074 <= e <= 971.
Proof.
  unfold is_float, valid_binary, bounded, canonical_mantissa.
  intros V. apply andb_true_iff in V as [C B].
  apply Z.eqb_eq in C. apply Z.leb_le in B.
  revert C B. unfold fexp, emin, prec, emax. lia.
Qed.

(** A float passes the check of a field exactly when its value lies
    between the values of the two bounds. *)
Lemma in_range_exact f x mlo elo mhi ehi :
  ge f = S754_finite false mlo elo -> le f = S754_finite false mhi ehi ->
  nf (ge f) -> nf (le f) -> -1074 < elo ->
  is_float x ->
  (in_range f x = true <-> units (ge f) <= units x <= units (le f)).
Proof.
  intros Eg El Ng Nl Helo V. unfold in_range. rewrite andb_true_iff.
  assert (Pg : 2 ^ 53 <= units (ge f)).
  { rewrite Eg in *. destruct Ng as [D _]. cbn [units cond_Zopp].
    pose proof (digits2_bounds mlo) as [Lo _]. rewrite D in Lo.
    change (53 - 1) with 52 in Lo.
    replace (elo + 1074) with (elo + 1073 + 1) by lia.
    rewrite Z.pow_add_r by lia. change (2 ^ 1) with 2.
    pose proof (pow2_pos (elo + 1073) ltac:(lia)).
    change (2 ^ 53) with (2 ^ 52 * (1 * 2)).
    apply Z.mul_le_mono_nonneg; try lia. }
  split.
  - intros [Lo Hi].
    assert (Nx : nf x).
    { rewrite Eg in Lo. rewrite El in Hi.
      destruct x as [sx|sx| |sx mx ex]; try discriminate Lo.
      - destruct sx; discriminate.
      - destruct sx; [discriminate Lo|].
        apply leb_finite_same_sign_pos in Lo.
        destruct (is_float_canonical _ _ _ V) as [[D|[E _]] B]; [|lia].
        split; assumption. }
    split; apply nf_units_leb; auto.
  - intros [Lo Hi].
    assert (Nx : nf x).
    { destruct x as [sx|sx| |sx mx ex]; cbn [units] in Lo; try lia.
      destruct (is_float_canonical _ _ _ V) as [[D|[E D]] B]; [split; assumption|].
      exfalso. subst ex. change (-1074 + 1074) with 0 in Lo. rewrite Z.pow_0_r in Lo.
      pose proof (digits2_bounds mx) as [_ Up].
      assert (2 ^ Zpos (digits2_pos mx) <= 2 ^ 52) by (apply Z.pow_le_mono_r; lia).
      destruct sx; cbn [cond_Zopp] in Lo; lia. }
    split; apply nf_units_leb; auto.
Qed.

Lemma range_checks_exact_all x :
  is_float x ->
  (in_range measured_calcium_field x = true
   <-> 4 * 2 ^ 1074 <= units x <= 14 * 2 ^ 1074)
  /\ (in_range serum_albumin_field x = true
      <-> 2 * 2 ^ 1074 <= units x <= 11 * 2 ^ 1073)
  /\ (in_range normal_albumin_field x = true
      <-> 3 * 2 ^ 1074 <= units x <= 5 * 2 ^ 1074).
Proof.
  intros V.
  pose proof (in_range_exact measured_calcium_field x _ _ _ _ ge_measured le_measured) as Hm.
  pose proof (in_range_exact serum_albumin_field x _ _ _ _ ge_serum le_serum) as Hs.
  pose proof (in_range_exact normal_albumin_field x _ _ _ _ ge_normal le_normal) as Hn.
  rewrite ge_measured, le_measured in Hm. rewrite ge_serum, le_serum in Hs.
  rewrite ge_normal, le_normal in Hn.
  split; [|split].
  - replace (4 * 2 ^ 1074) with (units (S754_finite false 4503599627370496 (-50)))
      by (vm_compute; reflexivity).
    replace (14 * 2 ^ 1074) with (units (S754_finite false 7881299347898368 (-49)))
      by (vm_compute; reflexivity).
    apply Hm; auto; try nf_const; lia.
  - replace (2 * 2 ^ 1074) with (units (S754_finite false 4503599627370496 (-51)))
      by (vm_compute; reflexivity).
    replace (11 * 2 ^ 1073) with (units (S754_finite false 6192449487634432 (-50)))
      by (vm_compute; reflexivity).
    apply Hs; auto; try nf_const; lia.
  - replace (3 * 2 ^ 1074) with (units (S754_finite false 6755399441055744 (-51)))
      by (vm_compute; reflexivity).
    replace (5 * 2 ^ 1074) with (units (S754_finite false 5629499534213120 (-50)))
      by (vm_compute; reflexivity).
    apply Hn; auto; try nf_const; lia.
Qed.

(** Only a finite positive number satisfies the two comparisons of a
    field whose bounds are finite and positive. *)
Lemma in_range_finite_positive f x mlo elo mhi ehi :
  ge f = S754_finite false mlo elo -> le f = S754_finite false mhi ehi ->
  in_range f x = true -> exists m e, x = S754_finite false m e.
Proof.
  intros Eg El R. unfold in_range in R. rewrite Eg, El in R.
  apply andb_true_iff in R as [Lo Hi].
  destruct x as [sx|sx| |sx mx ex]; try discriminate Lo.
  - destruct sx; discriminate.
  - destruct sx; [discriminate Lo|]. eauto.
Qed.

Lemma default_in_range : in_range normal_albumin_field (lit 40 1) = true.
Proof. vm_compute. reflexivity. Qed.

(** The validated model has its three fields inside their ranges, the
    default included. *)
Lemma validated_in_range data input :
  validate data = Ok input ->
  in_range measured_calcium_field (measured_calcium input) = true
  /\ in_range serum_albumin_field (serum_albumin input) = true
  /\ in_range normal_albumin_field (normal_albumin input) = true.
Proof.
  intros V. apply validate_ok in V as (Em & Es & En).
  pose proof (validate_field_spec measured_calcium_field (form_measured_calcium data)) as Sm.
  pose proof (validate_field_spec serum_albumin_field (form_serum_albumin data)) as Ss.
  pose proof (validate_field_spec normal_albumin_field (form_normal_albumin data)) as Sn.
  rewrite Em in Sm. rewrite Es in Ss. rewrite En in Sn.
  destruct Sm as [_ [[_ Dm]|[_ Rm]]]; [discriminate|].
  destruct Ss as [_ [[_ Ds]|[_ Rs]]]; [discriminate|].
  destruct Sn as [_ [[_ Dn]|[_ Rn]]]; auto.
  cbn in Dn. injection Dn as <-. pose proof default_in_range. auto.
Qed.

Lemma validated_finite_positive data input :
  validate data = Ok input ->
  (exists m e, measured_calcium input = S754_finite false m e)
  /\ (exists m e, serum_albumin input = S754_finite false m e)
  /\ (exists m e, normal_albumin input = S754_finite false m e).
Proof.
  intros V. destruct (validated_in_range data input V) as (Rm & Rs & Rn).
  split; [|split].
  - exact (in_range_finite_positive _ _ _ _ _ _ ge_measured le_measured Rm).
  - exact (in_range_finite_positive _ _ _ _ _ _ ge_serum le_serum Rs).
  - exact (in_range_finite_positive _ _ _ _ _ _ ge_normal le_normal Rn).
Qed.

Lemma sub_self s m e : sub (S754_finite s m e) (S754_finite s m e) = S754_zero false.
Proof. rewrite sub_finite, Z.sub_diag. reflexivity. Qed.

(** With equal albumins the formula gives the measured calcium back. *)
Lemma formula_equal_albumin mm em ms es :
  formula (mkInput (S754_finite false mm em) (S754_finite false ms es)
                   (S754_finite false ms es))
  = S754_finite false mm em.
Proof.
  unfold formula. cbn [measured_calcium serum_albumin normal_albumin].
  rewrite sub_self.
  replace (lit 8 1) with (S754_finite false 7205759403792794 (-53))
    by (vm_compute; reflexivity).
  reflexivity.
Qed.

(** With equal albumins the operation returns the measured calcium
    rounded to one decimal place. *)
Lemma calculate_equal_albumin data input :
  validate data = Ok input ->
  serum_albumin input = normal_albumin input ->
  calculate data = Ok (mkOutput (round (measured_calcium input) 1)).
Proof.
  intros V E. rewrite (calculate_validated _ _ V).
  destruct (validated_finite_positive data input V) as ((mm & em & Hm) & _ & (mn & en & Hn)).
  destruct input as [m s n]. cbn [measured_calcium serum_albumin normal_albumin] in *.
  subst. unfold calculate_corrected_calcium.
  now rewrite formula_equal_albumin.
Qed.

Lemma normal_in_serum_range n :
  is_float n -> in_range normal_albumin_field n = true ->
  in_range serum_albumin_field n = true.
Proof.
  intros V R.
  apply (proj1 (proj2 (proj2 (range_checks_exact_all n V)))) in R.
  apply (proj1 (proj2 (range_checks_exact_all n V))).
  change (11 * 2 ^ 1073) with (11 * 2 ^ 1073) in *.
  assert (2 ^ 1074 = 2 * 2 ^ 1073) by reflexivity.
  pose proof (pow2_pos 1073 ltac:(lia)). lia.
Qed.

Lemma leb_refl_in_range f x mlo elo mhi ehi :
  ge f = S754_finite false mlo elo -> le f = S754_finite false mhi ehi ->
  in_range f x = true -> leb x x = true.
Proof.
  intros Eg El R.
  destruct (in_range_finite_positive f x _ _ _ _ Eg El R) as (m & e & ->).
  apply leb_finite_same_sign_pos. right. split; lia.
Qed.

(** When the serum albumin is at most the normal albumin the result is
    not below the measured calcium rounded to one decimal place, and when
    it is at least the normal albumin the result is not above it. *)
Lemma correction_direction_floats m s n :
  is_float m -> is_float s -> is_float n ->
  in_range measured_calcium_field m = true ->
  in_range serum_albumin_field s = true ->
  in_range normal_albumin_field n = true ->
  (leb s n = true ->
   leb (round m 1) (corrected_calcium (calculate_corrected_calcium (mkInput m s n))) = true)
  /\ (leb n s = true ->
      leb (corrected_calcium (calculate_corrected_calcium (mkInput m s n))) (round m 1) = true).
Proof.
  intros Vm Vs Vn Rm Rs Rn.
  pose proof (normal_in_serum_range n Vn Rn) as Rn'.
  pose proof (leb_refl_in_range _ m _ _ _ _ ge_measured le_measured Rm) as Lm.
  pose proof (leb_refl_in_range _ n _ _ _ _ ge_normal le_normal Rn) as Ln.
  assert (E : corrected_calcium (calculate_corrected_calcium (mkInput m n n)) = round m 1).
  { destruct (in_range_finite_positive _ m _ _ _ _ ge_measured le_measured Rm) as (mm & em & ->).
    destruct (in_range_finite_positive _ n _ _ _ _ ge_normal le_normal Rn) as (mn & en & ->).
    unfold calculate_corrected_calcium. cbn [corrected_calcium].
    now rewrite formula_equal_albumin. }
  rewrite <- E. split; intros L.
  - apply (corrected_mono m n n m s n); auto.
  - apply (corrected_mono m s n m n n); auto.
Qed.

(** The formula on exact values, on three integers at scale [2^-51]
    inside the ranges: it is the formula on these integers. *)
Lemma spec_of_ints Mm Ms Mn :
  9007199254740992 <= Mm <= 31525197391593472 ->
  4503599627370496 <= Ms <= 12384898975268864 ->
  6755399441055744 <= Mn <= 11258999068426240 ->
  spec_formula (Mm * 2 ^ 1023) (Ms * 2 ^ 1023) (Mn * 2 ^ 1023)
  = sround (formula_int Mm Ms Mn) * 2 ^ 1023
  /\ spec_tenths (Mm * 2 ^ 1023) (Ms * 2 ^ 1023) (Mn * 2 ^ 1023)
     = tenths_int Mm Ms Mn.
Proof.
  intros Bm Bs Bn.
  assert (Ef : spec_formula (Mm * 2 ^ 1023) (Ms * 2 ^ 1023) (Mn * 2 ^ 1023)
               = sround (formula_int Mm Ms Mn) * 2 ^ 1023).
  { unfold spec_formula, spec_correction, spec_difference, formula_int.
    rewrite <- Z.mul_sub_distr_r, sround_scale by lia.
    rewrite (fits_small (Mn - Ms)) by lia.
    rewrite Z.mul_assoc, sround_scale by lia.
    replace (Mm * 2 ^ 1023 * 2 ^ 53 + sround (c08 * (Mn - Ms)) * 2 ^ 1023)
      with ((Mm * 2 ^ 53 + sround (c08 * (Mn - Ms))) * 2 ^ 1023) by ring.
    now rewrite sround_scale by lia. }
  split; [exact Ef|].
  unfold spec_tenths, tenths_int. rewrite Ef.
  replace (10 * (sround (formula_int Mm Ms Mn) * 2 ^ 1023))
    with (sround (formula_int Mm Ms Mn) * 10 * 2 ^ 1023) by ring.
  change 1127 with (104 + 1023). apply half_even_scale; lia.
Qed.

(* ================================================================== *)
(** * Properties of the specification *)
(* ================================================================== *)

(** C1.  For every input with measuredCalcium in [4.0, 14.0],
    serumAlbumin in [2.0, 5.5] and normalAlbumin in [3.0, 5.0], the
    operation returns correctedCalcium equal to
    [round(measuredCalcium + 0.8 * (normalAlbumin - serumAlbumin), 1)],
    the formula result rounded to one decimal place: the value the
    handler computes before rounding is the formula on the exact values
    of the inputs, each operation rounded to binary64; the value returned
    is the float of the decimal [k / 10], with [k] the integer nearest
    to ten times that value. *)
Theorem calculate_is_rounded_formula (m s n : float) :
  is_float m -> is_float s -> is_float n ->
  in_range measured_calcium_field m = true ->
  in_range serum_albumin_field s = true ->
  in_range normal_albumin_field n = true ->
  units (formula (mkInput m s n)) * 2 ^ 53
  = spec_formula (units m) (units s) (units n)
  /\ calculate (mkForm (Number m) (Number s) (Number n))
     = Ok (mkOutput (lit (spec_tenths (units m) (units s) (units n)) 1))
  /\ 2 * Z.abs (10 * spec_formula (units m) (units s) (units n)
                - spec_tenths (units m) (units s) (units n) * 2 ^ 1127)
     <= 2 ^ 1127.
Proof.
  intros Vm Vs Vn Rm Rs Rn.
  rewrite (calculate_validated _ _ (validate_numbers m s n Rm Rs Rn)).
  destruct (measured_as_int m Vm Rm) as (Mm & -> & Fm & Bm).
  destruct (serum_as_int s Vs Rs) as (Ms & -> & Fs & Bs).
  destruct (normal_as_int n Vn Rn) as (Mn & -> & Fn & Bn).
  destruct (of_int_correct Mm (-51) ltac:(range_by 56)) as (_ & _ & ->).
  destruct (of_int_correct Ms (-51) ltac:(range_by 56)) as (_ & _ & ->).
  destruct (of_int_correct Mn (-51) ltac:(range_by 56)) as (_ & _ & ->).
  rewrite Fm, Fs, Fn. change (-51 + 1074) with 1023.
  destruct (spec_of_ints Mm Ms Mn Bm Bs Bn) as (Ef & Ek).
  destruct (sround_formula_int_bounds Mm Ms Mn Bm Bs Bn) as [N1 _].
  split; [|split].
  - destruct (formula_of_ints Mm Ms Mn Fm Fs Fn Bm Bs Bn) as (_ & _ & ->).
    pose proof (formula_int_bounds Mm Ms Mn Bm Bs Bn) as B.
    destruct (of_int_correct _ (-104) (formula_int_range _ B)) as (_ & _ & ->).
    rewrite Ef, <- Z.mul_assoc. reflexivity.
  - rewrite Ek. unfold calculate_corrected_calcium.
    pose proof (corrected_of_ints Mm Ms Mn Fm Fs Fn Bm Bs Bn) as E.
    unfold calculate_corrected_calcium in E. cbn [corrected_calcium] in E.
    now rewrite E.
  - unfold spec_tenths. apply half_even_nearest; [|lia].
    rewrite Ef. pose proof (pow2_pos 1023 ltac:(lia)). nia.
Qed.

Lemma calculate_is_rounded_formula_witness :
  spec_tenths (units (lit 435 2)) (units (lit 20 1)) (units (lit 40 1)) = 59
  /\ calculate (mkForm (Number (lit 435 2)) (Number (lit 20 1)) (Number (lit 40 1)))
     = Ok (mkOutput
             (lit (spec_tenths (units (lit 435 2)) (units (lit 20 1))
                               (units (lit 40 1))) 1)).
Proof.
  assert (K : spec_tenths (units (lit 435 2)) (units (lit 20 1)) (units (lit 40 1)) = 59)
    by (vm_compute; reflexivity).
  assert (Vm : is_float (lit 435 2)) by (vm_compute; reflexivity).
  assert (Vs : is_float (lit 20 1)) by (vm_compute; reflexivity).
  assert (Vn : is_float (lit 40 1)) by (vm_compute; reflexivity).
  assert (Rm : in_range measured_calcium_field (lit 435 2) = true)
    by (vm_compute; reflexivity).
  assert (Rs : in_range serum_albumin_field (lit 20 1) = true)
    by (vm_compute; reflexivity).
  assert (Rn : in_range normal_albumin_field (lit 40 1) = true)
    by (vm_compute; reflexivity).
  exact (conj K (proj1 (proj2
    (calculate_is_rounded_formula _ _ _ Vm Vs Vn Rm Rs Rn)))).
Defined.

(** C2.  The operation raises a ValidationError if and only if some
    input field is missing and has no default, is non-numeric, or lies
    outside its declared closed range; when it does, no result is
    produced; there is no other kind of error, and each entry of the
    error names an offending field. *)
Theorem validation_error_iff (data : Form) :
  ((exists errors, calculate data = ValidationError errors) <-> form_rejected data)
  /\ ((exists out, calculate data = Ok out) <-> ~ form_rejected data)
  /\ (forall errors, calculate data = ValidationError errors ->
        errors <> [] /\ forall e, In e errors -> offending data e).
Proof.
  destruct (calculate_outcome data) as [[NR [out E]]|[R (errors & E & NE & Off)]];
    rewrite E.
  - split; [|split].
    + split; [intros [? H]; discriminate H | tauto].
    + split; [auto | eauto].
    + intros ? H. discriminate H.
  - split; [|split].
    + split; [auto | eauto].
    + split; [intros [? H]; discriminate H | tauto].
    + intros ? H. injection H as <-. auto.
Qed.

(** Evaluates the range checks on concrete floats that are left in the
    goal. *)
Ltac eval_checks :=
  repeat match goal with
         | |- context [in_range ?f ?x] =>
             let b := eval vm_compute in (in_range f x) in
             match b with
             | true => change (in_range f x) with true
             | false => change (in_range f x) with false
             end
         | |- context [leb ?x ?y] =>
             let b := eval vm_compute in (leb x y) in
             match b with
             | true => change (leb x y) with true
             | false => change (leb x y) with false
             end
         end.

(** Settles the outcome of a form whose fields are numbers, from the
    range checks in the context. *)
Ltac outcome :=
  unfold accepted, rejected_on, calculate, validate;
  cbn [form_measured_calcium form_serum_albumin form_normal_albumin];
  rewrite !validate_field_number;
  repeat match goal with H : in_range _ _ = true |- _ => rewrite H end;
  eval_checks; cbn [field_errors app];
  first [reflexivity | eexists; reflexivity].

(** C3.  Boundary acceptance: with the other fields valid,
    measuredCalcium 4.0 and 14.0 are accepted while 3.999 and 14.001,
    and the floats next below 4.0 and next above 14.0, are rejected with
    a validation error; the same holds of serumAlbumin on [2.0, 5.5] and
    of normalAlbumin on [3.0, 5.0]: the intervals are closed at both
    ends. *)
Theorem boundary_acceptance (m s n : float) :
  in_range measured_calcium_field m = true ->
  in_range serum_albumin_field s = true ->
  in_range normal_albumin_field n = true ->
  (accepted (mkForm (Number (lit 40 1)) (Number s) (Number n))
   /\ accepted (mkForm (Number (lit 140 1)) (Number s) (Number n))
   /\ rejected_on measured_calcium_field greater_than_equal
        (mkForm (Number (lit 3999 3)) (Number s) (Number n))
   /\ rejected_on measured_calcium_field less_than_equal
        (mkForm (Number (lit 14001 3)) (Number s) (Number n))
   /\ rejected_on measured_calcium_field greater_than_equal
        (mkForm (Number (float_below (lit 40 1))) (Number s) (Number n))
   /\ rejected_on measured_calcium_field less_than_equal
        (mkForm (Number (float_above (lit 140 1))) (Number s) (Number n)))
  /\ (accepted (mkForm (Number m) (Number (lit 20 1)) (Number n))
      /\ accepted (mkForm (Number m) (Number (lit 55 1)) (Number n))
      /\ rejected_on serum_albumin_field greater_than_equal
           (mkForm (Number m) (Number (lit 1999 3)) (Number n))
      /\ rejected_on serum_albumin_field less_than_equal
           (mkForm (Number m) (Number (lit 5501 3)) (Number n))
      /\ rejected_on serum_albumin_field greater_than_equal
           (mkForm (Number m) (Number (float_below (lit 20 1))) (Number n))
      /\ rejected_on serum_albumin_field less_than_equal
           (mkForm (Number m) (Number (float_above (lit 55 1))) (Number n)))
  /\ (accepted (mkForm (Number m) (Number s) (Number (lit 30 1)))
      /\ accepted (mkForm (Number m) (Number s) (Number (lit 50 1)))
      /\ rejected_on normal_albumin_field greater_than_equal
           (mkForm (Number m) (Number s) (Number (lit 2999 3)))
      /\ rejected_on normal_albumin_field less_than_equal
           (mkForm (Number m) (Number s) (Number (lit 5001 3)))
      /\ rejected_on normal_albumin_field greater_than_equal
           (mkForm (Number m) (Number s) (Number (float_below (lit 30 1))))
      /\ rejected_on normal_albumin_field less_than_equal
           (mkForm (Number m) (Number s) (Number (float_above (lit 50 1))))).
Proof.
  intros Hm Hs Hn.
  split; [|split]; repeat apply conj; outcome.
Qed.

Lemma boundary_acceptance_witness :
  in_range measured_calcium_field (lit 95 1) = true
  /\ in_range serum_albumin_field (lit 35 1) = true
  /\ in_range normal_albumin_field (lit 40 1) = true
  /\ accepted (mkForm (Number (lit 40 1)) (Number (lit 35 1)) (Number (lit 40 1)))
  /\ rejected_on measured_calcium_field greater_than_equal
       (mkForm (Number (lit 3999 3)) (Number (lit 35 1)) (Number (lit 40 1))).
Proof.
  assert (Hm : in_range measured_calcium_field (lit 95 1) = true)
    by (vm_compute; reflexivity).
  assert (Hs : in_range serum_albumin_field (lit 35 1) = true)
    by (vm_compute; reflexivity).
  assert (Hn : in_range normal_albumin_field (lit 40 1) = true)
    by (vm_compute; reflexivity).
  pose proof (boundary_acceptance (lit 95 1) (lit 35 1) (lit 40 1) Hm Hs Hn)
    as [(A & _ & R & _) _].
  exact (conj Hm (conj Hs (conj Hn (conj A R)))).
Defined.


(** C6.  Totality on validated inputs: for every request that passed
    validation the computation produces a result; no step of the
    arithmetic overflows (each intermediate value and the returned value
    is finite: neither an infinity nor a NaN). *)
Theorem computation_total (data : Form) (input : CalciumCorrectionInput) :
  well_formed data ->
  validate data = Ok input ->
  calculate data = Ok (calculate_corrected_calcium input)
  /\ is_finite (sub (normal_albumin input) (serum_albumin input)) = true
  /\ is_finite (mul (lit 8 1) (sub (normal_albumin input) (serum_albumin input))) = true
  /\ is_finite (formula input) = true
  /\ is_finite (corrected_calcium (calculate_corrected_calcium input)) = true.
Proof.
  intros W V.
  destruct (validated_input data input W V) as ((Vm & Vs & Vn) & Rm & Rs & Rn).
  split; [now apply calculate_validated|].
  destruct input as [m s n]. cbn [measured_calcium serum_albumin normal_albumin] in *.
  destruct (formula_steps_finite m s n Vm Vs Vn Rm Rs Rn) as (Fd & Fp & Fr).
  do 3 (split; [assumption|]).
  destruct (corrected_calcium_tenths m s n Vm Vs Vn Rm Rs Rn) as (k & Hk & ->).
  now apply tenths_facts.
Qed.

Lemma computation_total_witness :
  well_formed (mkForm (Number (lit 140 1)) (Number (lit 20 1)) (Number (lit 50 1)))
  /\ validate (mkForm (Number (lit 140 1)) (Number (lit 20 1)) (Number (lit 50 1)))
     = Ok (mkInput (lit 140 1) (lit 20 1) (lit 50 1))
  /\ is_finite (corrected_calcium
                  (calculate_corrected_calcium
                     (mkInput (lit 140 1) (lit 20 1) (lit 50 1)))) = true.
Proof.
  assert (W : well_formed (mkForm (Number (lit 140 1)) (Number (lit 20 1))
                                  (Number (lit 50 1))))
    by (vm_compute; auto).
  assert (V : validate (mkForm (Number (lit 140 1)) (Number (lit 20 1))
                               (Number (lit 50 1)))
              = Ok (mkInput (lit 140 1) (lit 20 1) (lit 50 1)))
    by (vm_compute; reflexivity).
  exact (conj W (conj V
    (proj2 (proj2 (proj2 (proj2 (computation_total _ _ W V))))))).
Defined.

(** C7.  Concrete scenarios: (measured 9.5, serum 3.5, normal omitted)
    gives 9.9; (8.0, 2.0, 4.0) gives 9.6; (10.0, 5.5, 4.0) gives 8.8;
    (9.0, 3.0, 4.5) gives 10.2. *)
Theorem concrete_scenarios :
  calculate (mkForm (Number (lit 95 1)) (Number (lit 35 1)) Absent)
  = Ok (mkOutput (lit 99 1))
  /\ calculate (mkForm (Number (lit 80 1)) (Number (lit 20 1)) (Number (lit 40 1)))
     = Ok (mkOutput (lit 96 1))
  /\ calculate (mkForm (Number (lit 100 1)) (Number (lit 55 1)) (Number (lit 40 1)))
     = Ok (mkOutput (lit 88 1))
  /\ calculate (mkForm (Number (lit 90 1)) (Number (lit 30 1)) (Number (lit 45 1)))
     = Ok (mkOutput (lit 102 1)).
Proof. repeat apply conj; vm_compute; reflexivity. Qed.

(** C8.  For every validated input the returned correctedCalcium is a
    finite float with one fractional digit when represented: it is the
    float that a decimal [k / 10] with one digit after the point
    denotes, and converting it to one decimal place gives that decimal
    back. *)
Theorem result_has_one_decimal (data : Form) (input : CalciumCorrectionInput) :
  well_formed data ->
  validate data = Ok input ->
  exists k : Z,
    20 <= k <= 164
    /\ calculate data = Ok (mkOutput (lit k 1))
    /\ is_finite (lit k 1) = true
    /\ round (lit k 1) 1 = lit k 1.
Proof.
  intros W V.
  destruct (validated_input data input W V) as ((Vm & Vs & Vn) & Rm & Rs & Rn).
  rewrite (calculate_validated _ _ V).
  destruct input as [m s n]. cbn [measured_calcium serum_albumin normal_albumin] in *.
  destruct (corrected_calcium_tenths m s n Vm Vs Vn Rm Rs Rn) as (k & Hk & E).
  exists k. destruct (tenths_facts k Hk) as (F & _ & _ & _ & R).
  repeat split; try assumption; try lia.
  unfold calculate_corrected_calcium in *. cbn [corrected_calcium] in E.
  now rewrite E.
Qed.

Lemma result_has_one_decimal_witness :
  well_formed (mkForm (Number (lit 95 1)) (Number (lit 35 1)) Absent)
  /\ validate (mkForm (Number (lit 95 1)) (Number (lit 35 1)) Absent)
     = Ok (mkInput (lit 95 1) (lit 35 1) (lit 40 1))
  /\ exists k : Z,
       20 <= k <= 164
       /\ calculate (mkForm (Number (lit 95 1)) (Number (lit 35 1)) Absent)
          = Ok (mkOutput (lit k 1))
       /\ is_finite (lit k 1) = true
       /\ round (lit k 1) 1 = lit k 1.
Proof.
  assert (W : well_formed (mkForm (Number (lit 95 1)) (Number (lit 35 1)) Absent))
    by (vm_compute; auto).
  assert (V : validate (mkForm (Number (lit 95 1)) (Number (lit 35 1)) Absent)
              = Ok (mkInput (lit 95 1) (lit 35 1) (lit 40 1)))
    by (vm_compute; reflexivity).
  exact (conj W (conj V (result_has_one_decimal _ _ W V))).
Defined.

(** C9.  Bounded output: for every validated input the value of the
    formula lies between the floats 2.0 and 16.4, and so does the
    rounded result; both ends are reached, at (measured 4.0, serum 5.5,
    normal 3.0) and at (measured 14.0, serum 2.0, normal 5.0); the
    result is not checked against the range of measuredCalcium, and at
    these two inputs it lies outside [4.0, 14.0]. *)
Theorem corrected_calcium_bounds (data : Form) (input : CalciumCorrectionInput) :
  well_formed data ->
  validate data = Ok input ->
  (leb (lit 20 1) (formula input) = true
   /\ leb (formula input) (lit 164 1) = true)
  /\ (leb (lit 20 1) (corrected_calcium (calculate_corrected_calcium input)) = true
      /\ leb (corrected_calcium (calculate_corrected_calcium input)) (lit 164 1) = true)
  /\ (formula (mkInput (lit 40 1) (lit 55 1) (lit 30 1)) = lit 20 1
      /\ calculate (mkForm (Number (lit 40 1)) (Number (lit 55 1)) (Number (lit 30 1)))
         = Ok (mkOutput (lit 20 1))
      /\ in_range measured_calcium_field (lit 20 1) = false)
  /\ (formula (mkInput (lit 140 1) (lit 20 1) (lit 50 1)) = lit 164 1
      /\ calculate (mkForm (Number (lit 140 1)) (Number (lit 20 1)) (Number (lit 50 1)))
         = Ok (mkOutput (lit 164 1))
      /\ in_range measured_calcium_field (lit 164 1) = false).
Proof.
  intros W V.
  destruct (validated_input data input W V) as ((Vm & Vs & Vn) & Rm & Rs & Rn).
  destruct input as [m s n]. cbn [measured_calcium serum_albumin normal_albumin] in *.
  split; [now apply formula_between|].
  split.
  - destruct (corrected_calcium_tenths m s n Vm Vs Vn Rm Rs Rn) as (k & Hk & ->).
    destruct (tenths_facts k Hk) as (_ & _ & Lo & Hi & _). now split.
  - split; repeat apply conj; vm_compute; reflexivity.
Qed.

Lemma corrected_calcium_bounds_witness :
  well_formed (mkForm (Number (lit 90 1)) (Number (lit 30 1)) (Number (lit 45 1)))
  /\ validate (mkForm (Number (lit 90 1)) (Number (lit 30 1)) (Number (lit 45 1)))
     = Ok (mkInput (lit 90 1) (lit 30 1) (lit 45 1))
  /\ leb (lit 20 1) (formula (mkInput (lit 90 1) (lit 30 1) (lit 45 1))) = true
  /\ leb (formula (mkInput (lit 90 1) (lit 30 1) (lit 45 1))) (lit 164 1) = true.
Proof.
  assert (W : well_formed (mkForm (Number (lit 90 1)) (Number (lit 30 1))
                                  (Number (lit 45 1))))
    by (vm_compute; auto).
  assert (V : validate (mkForm (Number (lit 90 1)) (Number (lit 30 1))
                               (Number (lit 45 1)))
              = Ok (mkInput (lit 90 1) (lit 30 1) (lit 45 1)))
    by (vm_compute; reflexivity).
  exact (conj W (conj V (proj1 (corrected_calcium_bounds _ _ W V)))).
Defined.

(** C10.  The one-decimal rounding step is round-half-to-even, applied
    to the floating-point value of the formula: the result is
    [round(formula, 1)]; for a finite float, [round(x, 1)] reads back
    the decimal [k / 10] where [k] is the integer nearest to ten times
    the exact value of [x], the even one when two are equally near; so
    the float 4.25 gives 4.2 and the float 4.75 gives 4.8 (not 4.3), and
    4.35, whose float lies below the decimal 4.35, gives 4.3. *)
Theorem rounding_is_half_to_even :
  (forall input,
     corrected_calcium (calculate_corrected_calcium input) = round (formula input) 1)
  /\ (forall s m e,
        exists k,
          round (S754_finite s m e) 1 = of_decimal s k 1
          /\ 2 * Z.abs (Zpos m * 10 * 2 ^ Z.max e 0 - k * 2 ^ Z.max (- e) 0)
             <= 2 ^ Z.max (- e) 0
          /\ (2 * Z.abs (Zpos m * 10 * 2 ^ Z.max e 0 - k * 2 ^ Z.max (- e) 0)
              = 2 ^ Z.max (- e) 0 -> Z.even k = true))
  /\ calculate (mkForm (Number (lit 425 2)) (Number (lit 40 1)) (Number (lit 40 1)))
     = Ok (mkOutput (lit 42 1))
  /\ calculate (mkForm (Number (lit 475 2)) (Number (lit 40 1)) (Number (lit 40 1)))
     = Ok (mkOutput (lit 48 1))
  /\ calculate (mkForm (Number (lit 435 2)) (Number (lit 40 1)) (Number (lit 40 1)))
     = Ok (mkOutput (lit 43 1)).
Proof.
  split; [reflexivity|]. split.
  - intros s m e. exists (decimal_digits m e 1). split; [reflexivity|].
    unfold decimal_digits. change (10 ^ Z.of_N 1) with 10.
    destruct e as [|p|p].
    + change (Z.max 0 0) with 0. change (Z.max (- 0) 0) with 0.
      rewrite Z.pow_0_r. split; lia.
    + rewrite (Z.max_l (Zpos p) 0), (Z.max_r (- Zpos p) 0) by lia.
      rewrite Z.pow_0_r. split; lia.
    + rewrite (Z.max_r (Zneg p) 0), (Z.max_l (- Zneg p) 0) by lia.
      rewrite Z.pow_0_r, Z.mul_1_r. change (- Zneg p) with (Zpos p).
      apply half_even_nearest; lia.
  - repeat apply conj; vm_compute; reflexivity.
Qed.

(* ================================================================== *)
(** * Further properties of the code *)
(* ================================================================== *)

(** X1.  The range checks are exact: a float passes the check of a
    field exactly when its value (here in units of [2^-1074]) lies
    between the two bounds as real numbers, 4 and 14, 2 and 5.5, 3 and
    5; no rounding blurs the ends of the intervals. *)
Theorem range_checks_are_exact (x : float) :
  is_float x ->
  (in_range measured_calcium_field x = true
   <-> 4 * 2 ^ 1074 <= units x <= 14 * 2 ^ 1074)
  /\ (in_range serum_albumin_field x = true
      <-> 2 * 2 ^ 1074 <= units x <= 11 * 2 ^ 1073)
  /\ (in_range normal_albumin_field x = true
      <-> 3 * 2 ^ 1074 <= units x <= 5 * 2 ^ 1074).
Proof. exact (range_checks_exact_all x). Qed.

Lemma range_checks_are_exact_witness :
  is_float (float_above (lit 140 1))
  /\ (in_range measured_calcium_field (float_above (lit 140 1)) = true
      <-> 4 * 2 ^ 1074 <= units (float_above (lit 140 1)) <= 14 * 2 ^ 1074).
Proof.
  assert (V : is_float (float_above (lit 140 1))) by (vm_compute; reflexivity).
  exact (conj V (proj1 (range_checks_are_exact _ V))).
Defined.

(** X2.  What validation lets through: in a validated model each of the
    three fields is a finite positive float (no NaN, infinity, zero or
    negative number) inside the range of its field, also when
    normal_albumin was omitted and the default was taken. *)
Theorem validated_model_invariant (data : Form) (input : CalciumCorrectionInput) :
  validate data = Ok input ->
  (in_range measured_calcium_field (measured_calcium input) = true
   /\ exists m e, measured_calcium input = S754_finite false m e)
  /\ (in_range serum_albumin_field (serum_albumin input) = true
      /\ exists m e, serum_albumin input = S754_finite false m e)
  /\ (in_range normal_albumin_field (normal_albumin input) = true
      /\ exists m e, normal_albumin input = S754_finite false m e).
Proof.
  intros V.
  destruct (validated_in_range data input V) as (Rm & Rs & Rn).
  destruct (validated_finite_positive data input V) as (Pm & Ps & Pn).
  auto.
Qed.

Lemma validated_model_invariant_witness :
  validate (mkForm (Number (lit 95 1)) (Number (lit 35 1)) Absent)
  = Ok (mkInput (lit 95 1) (lit 35 1) (lit 40 1))
  /\ in_range normal_albumin_field (lit 40 1) = true.
Proof.
  assert (V : validate (mkForm (Number (lit 95 1)) (Number (lit 35 1)) Absent)
              = Ok (mkInput (lit 95 1) (lit 35 1) (lit 40 1)))
    by (vm_compute; reflexivity).
  exact (conj V (proj1 (proj2 (proj2 (validated_model_invariant _ _ V))))).
Defined.

(** X3.  A validation error reports every rejected field: each field
    that is missing without default, not a number or out of range has an
    entry; no field is reported twice; there are at most three
    entries. *)
Theorem every_rejected_field_is_reported (data : Form) (errors : list ErrorDetail) :
  calculate data = ValidationError errors ->
  (field_rejected measured_calcium_field (form_measured_calcium data) ->
   In (name measured_calcium_field) (map loc errors))
  /\ (field_rejected serum_albumin_field (form_serum_albumin data) ->
      In (name serum_albumin_field) (map loc errors))
  /\ (field_rejected normal_albumin_field (form_normal_albumin data) ->
      In (name normal_albumin_field) (map loc errors))
  /\ NoDup (map loc errors)
  /\ (List.length errors <= 3)%nat.
Proof.
  pose proof (validate_field_spec measured_calcium_field (form_measured_calcium data)) as Sm.
  pose proof (validate_field_spec serum_albumin_field (form_serum_albumin data)) as Ss.
  pose proof (validate_field_spec normal_albumin_field (form_normal_albumin data)) as Sn.
  unfold calculate, validate.
  destruct (validate_field measured_calcium_field _) as [m|em];
    destruct (validate_field serum_albumin_field _) as [s|es];
    destruct (validate_field normal_albumin_field _) as [n|en];
    destruct Sm as [Sm Sm'], Ss as [Ss Ss'], Sn as [Sn Sn'];
    cbn [field_errors app]; intros E; try discriminate E;
    injection E as <-; cbn [map In List.length];
    rewrite ?Sm', ?Ss', ?Sn';
    (split; [tauto|]); (split; [tauto|]); (split; [tauto|]);
    (split; [|lia]);
    cbn [name measured_calcium_field serum_albumin_field normal_albumin_field];
    repeat constructor; cbn [In]; intuition discriminate.
Qed.

Lemma every_rejected_field_is_reported_witness :
  calculate (mkForm (Number (lit 39 1)) NotANumber (Number (lit 60 1)))
  = ValidationError [mkError "measured_calcium" greater_than_equal;
                     mkError "serum_albumin" float_parsing;
                     mkError "normal_albumin" less_than_equal]
  /\ NoDup ["measured_calcium"; "serum_albumin"; "normal_albumin"]%string.
Proof.
  assert (E : calculate (mkForm (Number (lit 39 1)) NotANumber (Number (lit 60 1)))
              = ValidationError [mkError "measured_calcium" greater_than_equal;
                                 mkError "serum_albumin" float_parsing;
                                 mkError "normal_albumin" less_than_equal])
    by (vm_compute; reflexivity).
  exact (conj E (proj1 (proj2 (proj2 (proj2
                  (every_rejected_field_is_reported _ _ E)))))).
Defined.

(** X4.  Monotonicity: between two validated inputs, a measured calcium
    and a normal albumin that are not smaller and a serum albumin that
    is not greater give a formula value and a result that are not
    smaller. *)
Theorem result_is_monotone (data data' : Form) (input input' : CalciumCorrectionInput) :
  well_formed data -> validate data = Ok input ->
  well_formed data' -> validate data' = Ok input' ->
  leb (measured_calcium input) (measured_calcium input') = true ->
  leb (serum_albumin input') (serum_albumin input) = true ->
  leb (normal_albumin input) (normal_albumin input') = true ->
  leb (formula input) (formula input') = true
  /\ leb (corrected_calcium (calculate_corrected_calcium input))
         (corrected_calcium (calculate_corrected_calcium input')) = true.
Proof.
  intros W V W' V' Lm Ls Ln.
  destruct (validated_input data input W V) as ((Vm & Vs & Vn) & Rm & Rs & Rn).
  destruct (validated_input data' input' W' V') as ((Vm' & Vs' & Vn') & Rm' & Rs' & Rn').
  destruct input as [m s n], input' as [m' s' n'].
  cbn [measured_calcium serum_albumin normal_albumin] in *.
  now apply corrected_mono.
Qed.

Lemma result_is_monotone_witness :
  leb (corrected_calcium (calculate_corrected_calcium
                            (mkInput (lit 90 1) (lit 35 1) (lit 40 1))))
      (corrected_calcium (calculate_corrected_calcium
                            (mkInput (lit 95 1) (lit 30 1) (lit 45 1)))) = true.
Proof.
  assert (W : well_formed (mkForm (Number (lit 90 1)) (Number (lit 35 1))
                                  (Number (lit 40 1)))) by (vm_compute; auto).
  assert (V : validate (mkForm (Number (lit 90 1)) (Number (lit 35 1)) (Number (lit 40 1)))
              = Ok (mkInput (lit 90 1) (lit 35 1) (lit 40 1)))
    by (vm_compute; reflexivity).
  assert (W' : well_formed (mkForm (Number (lit 95 1)) (Number (lit 30 1))
                                   (Number (lit 45 1)))) by (vm_compute; auto).
  assert (V' : validate (mkForm (Number (lit 95 1)) (Number (lit 30 1)) (Number (lit 45 1)))
               = Ok (mkInput (lit 95 1) (lit 30 1) (lit 45 1)))
    by (vm_compute; reflexivity).
  assert (Lm : leb (lit 90 1) (lit 95 1) = true) by (vm_compute; reflexivity).
  assert (Ls : leb (lit 30 1) (lit 35 1) = true) by (vm_compute; reflexivity).
  assert (Ln : leb (lit 40 1) (lit 45 1) = true) by (vm_compute; reflexivity).
  exact (proj2 (result_is_monotone _ _ _ _ W V W' V' Lm Ls Ln)).
Defined.

(** X5.  No correction at normal albumin: when the validated serum
    albumin equals the normal albumin, the result is the measured
    calcium rounded to one decimal place. *)
Theorem no_correction_at_normal_albumin (data : Form) (input : CalciumCorrectionInput) :
  validate data = Ok input ->
  serum_albumin input = normal_albumin input ->
  calculate data = Ok (mkOutput (round (measured_calcium input) 1)).
Proof. exact (calculate_equal_albumin data input). Qed.

Lemma no_correction_at_normal_albumin_witness :
  calculate (mkForm (Number (lit 1037 2)) (Number (lit 40 1)) Absent)
  = Ok (mkOutput (round (lit 1037 2) 1)).
Proof.
  assert (V : validate (mkForm (Number (lit 1037 2)) (Number (lit 40 1)) Absent)
              = Ok (mkInput (lit 1037 2) (lit 40 1) (lit 40 1)))
    by (vm_compute; reflexivity).
  exact (no_correction_at_normal_albumin _ _ V eq_refl).
Defined.

(** X6.  Direction of the correction: for a validated input whose serum
    albumin is at most the normal albumin the result is not below the
    measured calcium rounded to one decimal place; when the serum
    albumin is at least the normal albumin it is not above it. *)
Theorem correction_direction (data : Form) (input : CalciumCorrectionInput) :
  well_formed data -> validate data = Ok input ->
  (leb (serum_albumin input) (normal_albumin input) = true ->
   leb (round (measured_calcium input) 1)
       (corrected_calcium (calculate_corrected_calcium input)) = true)
  /\ (leb (normal_albumin input) (serum_albumin input) = true ->
      leb (corrected_calcium (calculate_corrected_calcium input))
          (round (measured_calcium input) 1) = true).
Proof.
  intros W V.
  destruct (validated_input data input W V) as ((Vm & Vs & Vn) & Rm & Rs & Rn).
  destruct input as [m s n]. cbn [measured_calcium serum_albumin normal_albumin] in *.
  now apply correction_direction_floats.
Qed.

Lemma correction_direction_witness :
  leb (lit 35 1) (lit 40 1) = true
  /\ leb (round (lit 95 1) 1)
         (corrected_calcium (calculate_corrected_calcium
                               (mkInput (lit 95 1) (lit 35 1) (lit 40 1)))) = true.
Proof.
  assert (W : well_formed (mkForm (Number (lit 95 1)) (Number (lit 35 1)) Absent))
    by (vm_compute; auto).
  assert (V : validate (mkForm (Number (lit 95 1)) (Number (lit 35 1)) Absent)
              = Ok (mkInput (lit 95 1) (lit 35 1) (lit 40 1)))
    by (vm_compute; reflexivity).
  assert (L : leb (lit 35 1) (lit 40 1) = true) by (vm_compute; reflexivity).
  exact (conj L (proj1 (correction_direction _ _ W V) L)).
Defined.

(** X7.  A measured calcium that already has one decimal place, [k / 10]
    between 4.0 and 14.0, comes back unchanged when the serum albumin
    equals the normal albumin. *)
Theorem one_decimal_measured_unchanged (k : Z) (s : float) :
  40 <= k <= 140 ->
  in_range serum_albumin_field s = true ->
  in_range normal_albumin_field s = true ->
  calculate (mkForm (Number (lit k 1)) (Number s) (Number s))
  = Ok (mkOutput (lit k 1)).
Proof.
  intros Hk Rs Rn.
  assert (Rm : in_range measured_calcium_field (lit k 1) = true).
  { unfold in_range. apply andb_true_iff. split.
    - change (ge measured_calcium_field) with (lit 40 1). apply lit_leb; lia.
    - change (le measured_calcium_field) with (lit 140 1). apply lit_leb; lia. }
  pose proof (validate_numbers (lit k 1) s s Rm Rs Rn) as V.
  rewrite (calculate_equal_albumin _ _ V eq_refl).
  cbn [measured_calcium]. destruct (tenths_facts k ltac:(lia)) as (_ & _ & _ & _ & ->).
  reflexivity.
Qed.

Lemma one_decimal_measured_unchanged_witness :
  40 <= 73 <= 140
  /\ calculate (mkForm (Number (lit 73 1)) (Number (lit 45 1)) (Number (lit 45 1)))
     = Ok (mkOutput (lit 73 1)).
Proof.
  assert (Hk : 40 <= 73 <= 140) by lia.
  assert (Rs : in_range serum_albumin_field (lit 45 1) = true)
    by (vm_compute; reflexivity).
  assert (Rn : in_range normal_albumin_field (lit 45 1) = true)
    by (vm_compute; reflexivity).
  exact (conj Hk (one_decimal_measured_unchanged 73 (lit 45 1) Hk Rs Rn)).
Defined.

(** X8.  Accuracy: for a validated input the returned decimal [k / 10]
    is within 0.05 + 2^-46 / 5 of the exact value of
    [measured + 0.8 * (normal - serum)], taken over the exact values of
    the three floats.  With values in units of [2^-1074] and both sides
    multiplied by 5, [k / 10] is [k * 2^1073], the exact formula is
    [5 m + 4 (n - s)], 0.05 is [2^1072] and the rounding errors of the
    three float operations stay below [2^1028]. *)
Theorem result_is_accurate (data : Form) (input : CalciumCorrectionInput) :
  well_formed data -> validate data = Ok input ->
  exists k : Z,
    20 <= k <= 164
    /\ calculate data = Ok (mkOutput (lit k 1))
    /\ Z.abs (k * 2 ^ 1073
              - (5 * units (measured_calcium input)
                 + 4 * (units (normal_albumin input) - units (serum_albumin input))))
       <= 2 ^ 1072 + 2 ^ 1028.
Proof.
  intros W V.
  destruct (validated_input data input W V) as ((Vm & Vs & Vn) & Rm & Rs & Rn).
  rewrite (calculate_validated _ _ V).
  destruct input as [m s n]. cbn [measured_calcium serum_albumin normal_albumin] in *.
  destruct (measured_as_int m Vm Rm) as (Mm & -> & Fm & Bm).
  destruct (serum_as_int s Vs Rs) as (Ms & -> & Fs & Bs).
  destruct (normal_as_int n Vn Rn) as (Mn & -> & Fn & Bn).
  exists (tenths_int Mm Ms Mn).
  split; [now apply tenths_int_bounds|]. split.
  - unfold calculate_corrected_calcium.
    pose proof (corrected_of_ints Mm Ms Mn Fm Fs Fn Bm Bs Bn) as E.
    unfold calculate_corrected_calcium in E. cbn [corrected_calcium] in E.
    now rewrite E.
  - destruct (of_int_correct Mm (-51) ltac:(range_by 56)) as (_ & _ & ->).
    destruct (of_int_correct Ms (-51) ltac:(range_by 56)) as (_ & _ & ->).
    destruct (of_int_correct Mn (-51) ltac:(range_by 56)) as (_ & _ & ->).
    rewrite Fm, Fs, Fn. change (-51 + 1074) with 1023.
    pose proof (tenths_int_accuracy Mm Ms Mn Bm Bs Bn) as A.
    set (k := tenths_int Mm Ms Mn) in *.
    replace (k * 2 ^ 1073 - (5 * (Mm * 2 ^ 1023) + 4 * (Mn * 2 ^ 1023 - Ms * 2 ^ 1023)))
      with ((k * 2 ^ 104 - (5 * Mm + 4 * (Mn - Ms)) * 2 ^ 54) * 2 ^ 969)
      by (change (2 ^ 1073) with (2 ^ 104 * 2 ^ 969);
          change (2 ^ 1023) with (2 ^ 54 * 2 ^ 969); ring).
    rewrite Z.abs_mul, (Z.abs_eq (2 ^ 969)) by (apply Z.lt_le_incl, pow2_pos; lia).
    change (2 ^ 1072 + 2 ^ 1028) with ((2 ^ 103 + 2 ^ 59) * 2 ^ 969).
    apply Z.mul_le_mono_nonneg_r; [apply Z.lt_le_incl, pow2_pos; lia | exact A].
Qed.

Lemma result_is_accurate_witness :
  exists k : Z,
    20 <= k <= 164
    /\ calculate (mkForm (Number (lit 1037 2)) (Number (lit 231 2)) (Number (lit 417 2)))
       = Ok (mkOutput (lit k 1))
    /\ Z.abs (k * 2 ^ 1073
              - (5 * units (lit 1037 2) + 4 * (units (lit 417 2) - units (lit 231 2))))
       <= 2 ^ 1072 + 2 ^ 1028.
Proof.
  assert (W : well_formed (mkForm (Number (lit 1037 2)) (Number (lit 231 2))
                                  (Number (lit 417 2)))) by (vm_compute; auto).
  assert (V : validate (mkForm (Number (lit 1037 2)) (Number (lit 231 2))
                               (Number (lit 417 2)))
              = Ok (mkInput (lit 1037 2) (lit 231 2) (lit 417 2)))
    by (vm_compute; reflexivity).
  exact (result_is_accurate _ _ W V).
Defined.
